(** * backlang: line-order transcoding and interpreter dispatch

    A shallow embedding of the Go sources [main.go] and [router.go] and the
    properties of the transcoding format, the naming rules and the language
    detector.

    Go's [[]byte] and [string] are both immutable-by-use byte sequences in
    this program; both are modelled as [list byte].  Slice indices are
    natural numbers (they never leave [0 .. len]); the one counter that is
    not bounded by a slice length, the [i] of [nextAvailableName], is a
    64-bit [int] modelled in [Z] with its wrap-around. *)

From Stdlib Require Import ZArith Lia List.
From Stdlib Require Import Strings.Byte Strings.String DecimalString.
From stdpp Require Import base list countable gmap.

Open Scope string_scope.
Open Scope list_scope.

Abbreviation bytes := (list byte).

(** String literals stand for their bytes. *)
Definition lit (s : string) : bytes := list_byte_of_string s.
Coercion lit : string >-> list.

#[global] Instance byte_eq_dec : EqDecision byte := Byte.byte_eq_dec.
#[global] Instance byte_countable : Countable byte :=
  inj_countable Byte.to_N Byte.of_N Byte.of_to_N.

(** ['\n'], ['\r'], ['/'] and ['.']. *)
Definition LF : byte := x0a.
Definition CR : byte := x0d.
Definition Separator : byte := x2f.
Definition Dot : byte := x2e.

(** [b[lo:hi]] *)
Definition slice {T} (b : list T) (lo hi : nat) : list T :=
  take (hi - lo) (drop lo b).

(** ** main.go: helpers *)

(** The [for i := 0; i < len(b); i++] loop of [splitLinesPreserveEndings];
    [n] counts the iterations that remain, the state is [(start, lines)]. *)
Fixpoint splitLoop (b : bytes) (n i start : nat) (lines : list bytes)
  : nat * list bytes :=
  match n with
  | O => (start, lines)
  | S n' =>
      if bool_decide (b !! i = Some LF) then
        let end_ := i + 1 in
        splitLoop b n' (i + 1) end_ (lines ++ [slice b start end_])
      else splitLoop b n' (i + 1) start lines
  end.

Definition splitLinesPreserveEndings (b : bytes) : list bytes :=
  let '(start, lines) := splitLoop b (length b) 0 0 [] in
  if bool_decide (start < length b) then
    (* trailing line without newline: a copy with '\n' appended *)
    lines ++ [drop start b ++ [LF]]
  else lines.

(** [reverse]: the two-index swap loop, on the slice itself. *)
Fixpoint reverseLoop {T} (n i j : nat) (s : list T) : list T :=
  match n with
  | O => s
  | S n' =>
      if bool_decide (i < j) then
        match s !! i, s !! j with
        | Some x, Some y => reverseLoop n' (i + 1) (j - 1) (<[i := y]> (<[j := x]> s))
        | _, _ => s
        end
      else s
  end.

(** [j] starts at [len(s)-1]; for the empty slice Go has [j = -1] and the
    loop does not run, as with the truncated [0 - 1 = 0] here. *)
Definition reverse {T} (s : list T) : list T :=
  reverseLoop (length s) 0 (length s - 1) s.

Definition join (chunks : list bytes) : bytes :=
  match chunks with
  | [] => []
  | _ => fold_left (fun out c => out ++ c) chunks []
  end.

Definition marker : bytes := "##BCKL.NNL##" ++ [LF].

(** [len(b) > 0 && b[len(b)-1] == '\n'] *)
Definition endsWithNewline (b : bytes) : bool :=
  bool_decide (0 < length b) && bool_decide (b !! (length b - 1) = Some LF).

(** ** The buffer transformation of [encode] (main.go, lines 56-69) *)
Definition encodeBytes (data : bytes) : bytes :=
  let hasTrailingNewline := endsWithNewline data in
  let lines := splitLinesPreserveEndings data in
  let lines := reverse lines in
  let lines :=
    if negb hasTrailingNewline && bool_decide (0 < length data)
    then [marker] ++ lines
    else lines in
  join lines.

(** ** The buffer transformation of [decode] (main.go, lines 83-100 and 114);
    [run] repeats it word for word (router.go, lines 55-72 and 83). *)
Definition decodeBytes (data : bytes) : bytes :=
  let lines := splitLinesPreserveEndings data in
  let '(hasMarker, lines) :=
    match lines with
    | l0 :: rest =>
        if bool_decide (l0 = marker) then (true, rest) else (false, lines)
    | [] => (false, lines)
    end in
  let lines := reverse lines in
  let lines :=
    if hasMarker && bool_decide (0 < length lines) then
      match lines !! (length lines - 1) with
      | Some lastLine =>
          if endsWithNewline lastLine
          then <[length lines - 1 := take (length lastLine - 1) lastLine]> lines
          else lines
      | None => lines
      end
    else lines in
  join lines.

(** A buffer of newline-terminated text lines, for examples. *)
Definition nl (s : string) : bytes := lit s ++ [LF].

(** ** The Go standard library, as far as the program uses it

    Three library behaviours depend on Unicode tables or on buffered I/O and
    are left abstract: what [strings.ToLower] does to a string that is not
    pure ASCII, [strings.TrimSpace], and the first token that a
    [bufio.Scanner] yields for a file's contents ([None] when [Scan] reports
    false). *)
Class GoLib := {
  unicodeToLower : bytes -> bytes;
  trimSpace : bytes -> bytes;
  scanFirstLine : bytes -> option bytes
}.

Module strings.

(** [len(s) >= len(prefix) && s[:len(prefix)] == prefix] *)
Definition HasPrefix (s prefix : bytes) : bool :=
  bool_decide (length prefix <= length s) &&
  bool_decide (take (length prefix) s = prefix).

Definition HasSuffix (s suffix : bytes) : bool :=
  bool_decide (length suffix <= length s) &&
  bool_decide (drop (length s - length suffix) s = suffix).

Definition TrimSuffix (s suffix : bytes) : bytes :=
  if HasSuffix s suffix then take (length s - length suffix) s else s.

(** Search from the right for [substr] at offsets [i, i-1, .., 0]. *)
Fixpoint lastIndexFrom (s substr : bytes) (i : nat) : Z :=
  if bool_decide (slice s i (i + length substr) = substr) then Z.of_nat i
  else match i with
       | O => (-1)%Z
       | S i' => lastIndexFrom s substr i'
       end.

Definition LastIndex (s substr : bytes) : Z :=
  if bool_decide (length s < length substr) then (-1)%Z
  else lastIndexFrom s substr (length s - length substr).

Definition isASCII (s : bytes) : bool :=
  forallb (fun c => (Byte.to_N c <? 128)%N) s.

Definition isUpper (c : byte) : bool :=
  (65 <=? Byte.to_N c)%N && (Byte.to_N c <=? 90)%N.

(** [c += 'a' - 'A'] for ['A' <= c <= 'Z'] *)
Definition lowerByte (c : byte) : byte :=
  if isUpper c then default c (Byte.of_N (Byte.to_N c + 32)) else c.

(** ASCII strings are lowered byte by byte; anything else goes through
    the Unicode mapping. *)
Definition ToLower {lib : GoLib} (s : bytes) : bytes :=
  if isASCII s then map lowerByte s else unicodeToLower s.

Definition TrimSpace {lib : GoLib} (s : bytes) : bytes := trimSpace s.

(** [strings.Join(elems, sep)] *)
Fixpoint Join (elems : list bytes) (sep : bytes) : bytes :=
  match elems with
  | [] => []
  | [e] => e
  | e :: rest => e ++ sep ++ Join rest sep
  end.

End strings.

(** [path/filepath] on a system whose separator is ['/'] and whose paths
    have no volume name. *)
Module filepath.

(** The elements between separators: ["a//b"] gives ["a"; ""; "b"]. *)
Fixpoint splitSep (cur s : bytes) : list bytes :=
  match s with
  | [] => [cur]
  | c :: s' =>
      if bool_decide (c = Separator) then cur :: splitSep [] s'
      else splitSep (cur ++ [c]) s'
  end.

(** The element loop of [Clean]; [out] holds the elements written so far,
    the latest first.  An element [".."] removes the latest real element,
    is kept when there is none and the path is not rooted, and is dropped
    at the root. *)
Fixpoint cleanElems (rooted : bool) (out elems : list bytes) : list bytes :=
  match elems with
  | [] => rev out
  | e :: rest =>
      if bool_decide (e = "") || bool_decide (e = ".") then
        cleanElems rooted out rest
      else if bool_decide (e = "..") then
        match out with
        | top :: out' =>
            if bool_decide (top = "..") then
              cleanElems rooted (if rooted then out else e :: out) rest
            else cleanElems rooted out' rest
        | [] => cleanElems rooted (if rooted then out else e :: out) rest
        end
      else cleanElems rooted (e :: out) rest
  end.

Definition Clean (path : bytes) : bytes :=
  if bool_decide (path = "") then "."
  else
    let rooted := bool_decide (path !! 0 = Some Separator) in
    let out := strings.Join (cleanElems rooted [] (splitSep [] path)) "/" in
    let out := if rooted then "/" ++ out else out in
    if bool_decide (out = "") then "." else out.

(** The bytes after the last separator. *)
Fixpoint lastElem (cur s : bytes) : bytes :=
  match s with
  | [] => cur
  | c :: s' =>
      if bool_decide (c = Separator) then lastElem [] s'
      else lastElem (cur ++ [c]) s'
  end.

Fixpoint dropLeadingSep (s : bytes) : bytes :=
  match s with
  | c :: s' => if bool_decide (c = Separator) then dropLeadingSep s' else s
  | [] => []
  end.

Definition stripTrailingSep (s : bytes) : bytes :=
  rev (dropLeadingSep (rev s)).

(** [Dir]: [Clean] of everything up to and including the last separator. *)
Definition Dir (path : bytes) : bytes :=
  Clean (take (length path - length (lastElem [] path)) path).

Definition Base (path : bytes) : bytes :=
  if bool_decide (path = "") then "."
  else
    let path := lastElem [] (stripTrailingSep path) in
    if bool_decide (path = "") then "/" else path.

(** [Ext]: from the last dot of the last element; the state is the
    extension of the bytes read so far. *)
Fixpoint extLoop (ext s : bytes) : bytes :=
  match s with
  | [] => ext
  | c :: s' =>
      if bool_decide (c = Separator) then extLoop [] s'
      else if bool_decide (c = Dot) then extLoop [Dot] s'
      else extLoop (if bool_decide (ext = []) then [] else ext ++ [c]) s'
  end.

Definition Ext (path : bytes) : bytes := extLoop [] path.

(** [Join]: empty elements before the first non-empty one are ignored,
    the rest is joined with separators and cleaned. *)
Fixpoint Join (elem : list bytes) : bytes :=
  match elem with
  | [] => []
  | e :: rest =>
      if bool_decide (e = "") then Join rest
      else Clean (strings.Join elem "/")
  end.

End filepath.

Module fmt.

(** [%d] of an [int] *)
Definition itoa (i : Z) : bytes :=
  lit (DecimalString.NilZero.string_of_int (Z.to_int i)).

End fmt.

(** Go's [int] on a 64-bit platform. *)
Definition wrap64 (z : Z) : Z := ((z + 2 ^ 63) mod 2 ^ 64 - 2 ^ 63)%Z.

(** ** The operating system seen by the program

    A world holds the regular files with their contents, the paths on which
    file operations are refused, what is waiting on standard input, how the
    child process started by [run] ends, and the log of everything the
    program did to its environment, oldest entry first. *)
Inductive oserror :=
  | ErrNotExist
  | ErrPermission
  | ErrOther (msg : bytes).

Inductive error :=
  | PathError (op path : bytes) (e : oserror)   (* from package os *)
  | Errorf (msg : bytes)                        (* fmt.Errorf *)
  | ReadError (msg : bytes).                    (* non-EOF error on stdin *)

Inductive event :=
  | EvReadFile (path : bytes)
  | EvWriteFile (path data : bytes)
  | EvStat (path : bytes)
  | EvOpen (path : bytes)
  | EvStdin
  | EvStdout (text : bytes)
  | EvStderr (text : bytes)
  | EvExec (command : bytes) (args : list bytes).

Record World := {
  files : gmap bytes bytes;
  faults : gmap bytes oserror;
  stdin : bytes;
  stdinFault : option bytes;
  childFailure : option bytes;
  log : list event
}.

Definition emit (ev : event) (w : World) : World :=
  {| files := files w; faults := faults w; stdin := stdin w;
     stdinFault := stdinFault w; childFailure := childFailure w;
     log := log w ++ [ev] |}.

Definition store (path data : bytes) (w : World) : World :=
  {| files := <[path := data]> (files w); faults := faults w;
     stdin := stdin w; stdinFault := stdinFault w;
     childFailure := childFailure w; log := log w |}.

(** A call returns a value, returns a Go [error], or is still running when
    the fuel of the unbounded loop in [nextAvailableName] is used up. *)
Inductive result (A : Type) :=
  | Ok (a : A)
  | Err (e : error)
  | Hang.
Arguments Ok {A} a.
Arguments Err {A} e.
Arguments Hang {A}.

Definition M (A : Type) : Type := World -> result A * World.

Definition ret {A} (a : A) : M A := fun w => (Ok a, w).
Definition fail {A} (e : error) : M A := fun w => (Err e, w).
Definition hang {A} : M A := fun w => (Hang, w).

Definition bind {A B} (c : M A) (k : A -> M B) : M B :=
  fun w =>
    match c w with
    | (Ok a, w') => k a w'
    | (Err e, w') => (Err e, w')
    | (Hang, w') => (Hang, w')
    end.

(** [if err != nil { return f(err) }] *)
Definition orReturn {A} (c : M A) (f : error -> error) : M A :=
  fun w =>
    match c w with
    | (Err e, w') => (Err (f e), w')
    | r => r
    end.

Definition effect (ev : event) : M unit := fun w => (Ok tt, emit ev w).

Notation "'let*' x ':=' c 'in' k" := (bind c (fun x => k))
  (at level 10, x name, c at level 100, k at level 200).
Notation "c1 '>>' c2" := (bind c1 (fun _ => c2))
  (at level 100, c2 at level 200, right associativity).

Module os.

Definition ReadFile (name : bytes) : M bytes :=
  effect (EvReadFile name) >>
  fun w =>
    match faults w !! name, files w !! name with
    | Some e, _ => (Err (PathError "open" name e), w)
    | None, Some data => (Ok data, w)
    | None, None => (Err (PathError "open" name ErrNotExist), w)
    end.

Definition WriteFile (name data : bytes) : M unit :=
  effect (EvWriteFile name data) >>
  fun w =>
    match faults w !! name with
    | Some e => (Err (PathError "open" name e), w)
    | None => (Ok tt, store name data w)
    end.

(** [os.Open] followed by reading through the handle. *)
Definition Open (name : bytes) : M bytes :=
  effect (EvOpen name) >>
  fun w =>
    match faults w !! name, files w !! name with
    | Some e, _ => (Err (PathError "open" name e), w)
    | None, Some data => (Ok data, w)
    | None, None => (Err (PathError "open" name ErrNotExist), w)
    end.

(** Whether [os.Stat] returns a nil error. *)
Definition Stat (name : bytes) : M bool :=
  effect (EvStat name) >>
  fun w => (Ok (bool_decide (is_Some (files w !! name))), w).

End os.

(** [err.Error()] *)
Definition errorText (err : error) : bytes :=
  match err with
  | PathError op path e =>
      op ++ " " ++ path ++ ": " ++
      match e with
      | ErrNotExist => lit "no such file or directory"
      | ErrPermission => lit "permission denied"
      | ErrOther msg => msg
      end
  | Errorf msg => msg
  | ReadError msg => msg
  end.

(** ** main.go: the remaining helpers *)
Section Program.

Context {lib : GoLib}.

Definition wrapPathErr (err : error) (path : bytes) : error :=
  match err with
  | PathError _ _ ErrNotExist =>
      Errorf ("Error: File '" ++ filepath.Base path ++ "' not found")
  | PathError _ _ ErrPermission =>
      Errorf ("Error: Permission denied accessing '" ++ filepath.Base path ++ "'")
  | _ => err
  end.

Definition printErr (err : error) : M unit :=
  effect (EvStderr (errorText err ++ [LF])).

Definition fileExists (p : bytes) : M bool := os.Stat p.

Definition stripLastBck (path : bytes) : bytes :=
  let dir := filepath.Dir path in
  let base := filepath.Base path in
  let idx := strings.LastIndex (strings.ToLower base) ".bck" in
  let base :=
    if bool_decide (0 <= idx)%Z && bool_decide (idx = Z.of_nat (length base) - 4)%Z
    then take (Z.to_nat idx) base
    else base in
  if bool_decide (dir = ".") then base
  else filepath.Join [dir; base].

(** [fmt.Sprintf("%s_%d%s", name, i, ext)] below [dir] *)
Definition candidateName (dir name ext : bytes) (i : Z) : bytes :=
  filepath.Join [dir; name ++ "_" ++ fmt.itoa i ++ ext].

(** The [for i := 1; ; i++] loop; it has no exit but the [return]. *)
Fixpoint nextAvailableLoop (fuel : nat) (dir name ext : bytes) (i : Z)
  : M bytes :=
  match fuel with
  | O => hang
  | S fuel' =>
      let candidate := candidateName dir name ext i in
      let* found := fileExists candidate in
      if negb found then ret candidate
      else nextAvailableLoop fuel' dir name ext (wrap64 (i + 1))
  end.

Definition nextAvailableName (fuel : nat) (path : bytes) : M bytes :=
  let dir := filepath.Dir path in
  let base := filepath.Base path in
  let ext := filepath.Ext base in
  let name := strings.TrimSuffix base ext in
  nextAvailableLoop fuel dir name ext 1.

(** [reader.ReadString('\n')]: the bytes up to and including the first
    newline, or all of them at end of input. *)
Fixpoint readLine (input : bytes) : bytes :=
  match input with
  | [] => []
  | c :: rest => if bool_decide (c = LF) then [c] else c :: readLine rest
  end.

Definition promptOverwrite (target : bytes) : M bool :=
  effect (EvStdout ("File '" ++ filepath.Base target ++ "' exists. Overwrite? (y/n): ")) >>
  effect EvStdin >>
  fun w =>
    match stdinFault w with
    | Some msg => (Err (ReadError msg), w)
    | None =>
        let line := readLine (stdin w) in
        let line := strings.TrimSpace (strings.ToLower line) in
        (Ok (bool_decide (line = "y") || bool_decide (line = "yes")), w)
    end.

(** The arrow of the confirmation lines, U+2192 in UTF-8. *)
Definition arrow : bytes := [xe2; x86; x92].

Definition encode (inPath : bytes) : M unit :=
  let* data := orReturn (os.ReadFile inPath) (fun err => wrapPathErr err inPath) in
  let outPath := inPath ++ ".bck" in
  orReturn (os.WriteFile outPath (encodeBytes data))
           (fun err => wrapPathErr err outPath) >>
  effect (EvStdout ("Encoded '" ++ filepath.Base inPath ++ "' " ++ arrow ++ " '"
                    ++ filepath.Base outPath ++ "'" ++ [LF])).

Definition decode (fuel : nat) (inPath : bytes) : M unit :=
  let* data := orReturn (os.ReadFile inPath) (fun err => wrapPathErr err inPath) in
  let outPath := stripLastBck inPath in
  let* found := fileExists outPath in
  let* outPath :=
    if found then
      let* overwrite := promptOverwrite outPath in
      if negb overwrite then nextAvailableName fuel outPath else ret outPath
    else ret outPath in
  orReturn (os.WriteFile outPath (decodeBytes data))
           (fun err => wrapPathErr err outPath) >>
  effect (EvStdout ("Decoded '" ++ filepath.Base inPath ++ "' " ++ arrow ++ " '"
                    ++ filepath.Base outPath ++ "'" ++ [LF])).

End Program.

(** ** router.go *)
Record Language := {
  Name : bytes;
  Extensions : list bytes;
  Shebangs : list bytes;
  Command : bytes;
  Args : list bytes
}.

Definition Python : Language :=
  {| Name := "Python";
     Extensions := [lit ".py"];
     Shebangs := [lit "#!/usr/bin/env python3"; lit "#!/usr/bin/python3";
                  lit "#!/usr/bin/env python"; lit "#!/usr/bin/python"];
     Command := "python3";
     Args := [] |}.

Definition getSupportedLanguages : list Language := [Python].

Section Router.

Context {lib : GoLib}.

(** [for _, shebang := range lang.Shebangs] inside
    [for _, lang := range languages]: the first language one of whose
    shebangs is a prefix of the line. *)
Fixpoint shebangLoop (firstLine : bytes) (shebangs : list bytes) : bool :=
  match shebangs with
  | [] => false
  | shebang :: rest =>
      if strings.HasPrefix firstLine shebang then true
      else shebangLoop firstLine rest
  end.

Fixpoint shebangScan (firstLine : bytes) (languages : list Language)
  : option Language :=
  match languages with
  | [] => None
  | lang :: rest =>
      if shebangLoop firstLine (Shebangs lang) then Some lang
      else shebangScan firstLine rest
  end.

Fixpoint extLoop (ext : bytes) (exts : list bytes) : bool :=
  match exts with
  | [] => false
  | langExt :: rest =>
      if bool_decide (ext = langExt) then true else extLoop ext rest
  end.

Fixpoint extScan (ext : bytes) (languages : list Language) : option Language :=
  match languages with
  | [] => None
  | lang :: rest =>
      if extLoop ext (Extensions lang) then Some lang
      else extScan ext rest
  end.

(** [detectLanguage] from the point where [firstLine] holds the trimmed
    first line (router.go, lines 116-137), over any registry. *)
Definition detectIn (languages : list Language) (firstLine filePath : bytes)
  : error + Language :=
  let byShebang :=
    if strings.HasPrefix firstLine "#!" then shebangScan firstLine languages
    else None in
  match byShebang with
  | Some lang => inr lang
  | None =>
      let ext := strings.ToLower (filepath.Ext filePath) in
      match extScan ext languages with
      | Some lang => inr lang
      | None =>
          inl (Errorf ("Error: No interpreter found for '"
                       ++ filepath.Base filePath ++ "'"))
      end
  end.

(** [var firstLine string; if scanner.Scan() { firstLine = TrimSpace(Text()) }] *)
Definition firstLineOf (content : bytes) : bytes :=
  match scanFirstLine content with
  | Some text => strings.TrimSpace text
  | None => []
  end.

Definition detectLanguage (filePath : bytes) : M Language :=
  let languages := getSupportedLanguages in
  let* content := orReturn (os.Open filePath) (fun err => wrapPathErr err filePath) in
  let firstLine := firstLineOf content in
  match detectIn languages firstLine filePath with
  | inr lang => ret lang
  | inl err => fail err
  end.

(** The child process is a black box: it is logged, and it succeeds or
    fails as the world says. *)
Definition executeFile (lang : Language) (filePath : bytes) : M unit :=
  let args := Args lang ++ [filePath] in
  effect (EvExec (Command lang) args) >>
  fun w =>
    match childFailure w with
    | Some msg =>
        (Err (Errorf ("Error: Failed to execute with " ++ Command lang
                      ++ ": " ++ msg)), w)
    | None => (Ok tt, w)
    end.

Definition run (fuel : nat) (inPath : bytes) : M unit :=
  if negb (strings.HasSuffix (strings.ToLower inPath) ".bck") then
    fail (Errorf "Error: run command only accepts .bck files")
  else
    let* data := orReturn (os.ReadFile inPath) (fun err => wrapPathErr err inPath) in
    let outPath := stripLastBck inPath in
    let* found := fileExists outPath in
    let* outPath :=
      if found then nextAvailableName fuel outPath else ret outPath in
    orReturn (os.WriteFile outPath (decodeBytes data))
             (fun err => wrapPathErr err outPath) >>
    effect (EvStdout ("Decoded '" ++ filepath.Base inPath ++ "' " ++ arrow ++ " '"
                      ++ filepath.Base outPath ++ "'" ++ [LF])) >>
    let* lang := detectLanguage outPath in
    effect (EvStdout ("Detected " ++ Name lang ++ ", running with "
                      ++ Command lang ++ "..." ++ [LF])) >>
    executeFile lang outPath.

(** ** main.go: [main]

    [args] is [os.Args]; the result is the exit status of the process
    ([0] when [main] returns), or [None] while the program is still
    looping. *)
Definition usageText : bytes :=
  "Usage: backlang <encode|decode|run> <file>" ++ [LF].

Definition exitWith (code : Z) (w : World) : option Z * World := (Some code, w).

(** [if err := c; err != nil { printErr(err); os.Exit(1) }] *)
Definition orExit1 (c : M unit) (w : World) : option Z * World :=
  match c w with
  | (Ok _, w') => exitWith 0 w'
  | (Err err, w') => exitWith 1 (snd (printErr err w'))
  | (Hang, w') => (None, w')
  end.

Definition main (fuel : nat) (args : list bytes) (w : World) : option Z * World :=
  match args with
  | [_; cmd; inPath] =>
      if bool_decide (cmd = "encode") then orExit1 (encode inPath) w
      else if bool_decide (cmd = "decode") then
        if negb (strings.HasSuffix (strings.ToLower inPath) ".bck") then
          exitWith 2 (emit (EvStderr ("Error: decode command only accepts .bck files"
                                      ++ [LF])) w)
        else orExit1 (decode fuel inPath) w
      else if bool_decide (cmd = "run") then orExit1 (run fuel inPath) w
      else exitWith 2 (emit (EvStderr usageText) w)
  | _ => exitWith 2 (emit (EvStderr usageText) w)
  end.

End Router.

(** ** An instance of the library for ASCII text

    On ASCII input Go trims the bytes [\t \n \v \f \r] and space, and a
    scanner with the default line splitter yields the bytes before the first
    newline without a trailing carriage return.  The Unicode lower-casing is
    never reached on ASCII input. *)
Definition isSpace (c : byte) : bool :=
  bool_decide (c = x09) || bool_decide (c = x0a) || bool_decide (c = x0b) ||
  bool_decide (c = x0c) || bool_decide (c = x0d) || bool_decide (c = x20).

Fixpoint trimLeft (s : bytes) : bytes :=
  match s with
  | c :: s' => if isSpace c then trimLeft s' else s
  | [] => []
  end.

Definition asciiTrimSpace (s : bytes) : bytes := rev (trimLeft (rev (trimLeft s))).

Fixpoint upToNewline (s : bytes) : bytes :=
  match s with
  | [] => []
  | c :: s' => if bool_decide (c = LF) then [] else c :: upToNewline s'
  end.

Definition dropCR (line : bytes) : bytes :=
  if bool_decide (last line = Some CR) then take (length line - 1) line else line.

Definition asciiScanFirstLine (content : bytes) : option bytes :=
  match content with
  | [] => None
  | _ => Some (dropCR (upToNewline content))
  end.

Definition asciiLib : GoLib :=
  {| unicodeToLower := fun s => s;
     trimSpace := asciiTrimSpace;
     scanFirstLine := asciiScanFirstLine |}.

Definition withFiles (fs : list (bytes * bytes)) (input : bytes) : World :=
  {| files := list_to_map fs; faults := empty; stdin := input;
     stdinFault := None; childFailure := None; log := [] |}.

(** ** Reference functions for the statements *)

(** The records of a buffer read left to right; [cur] is the line being
    read. *)
Fixpoint linesFrom (cur b : bytes) : list bytes :=
  match b with
  | [] => if bool_decide (cur = []) then [] else [cur ++ [LF]]
  | c :: b' =>
      if bool_decide (c = LF) then (cur ++ [LF]) :: linesFrom [] b'
      else linesFrom (cur ++ [c]) b'
  end.

(** The tail of [splitLinesPreserveEndings] after its loop. *)
Definition finishSplit (b : bytes) (st : nat * list bytes) : list bytes :=
  let '(start, lines) := st in
  if bool_decide (start < length b) then lines ++ [drop start b ++ [LF]] else lines.

(** A record: a body without newline, then one newline. *)
Definition isRecord (r : bytes) : Prop :=
  exists body, r = body ++ [LF] /\ ~ In LF body.

(** A buffer whose last line is the text of the marker. *)
Definition markerLast : bytes := nl "a" ++ marker.

(** A shebang of the descriptor is a prefix of the line. *)
Definition shebangMatches (firstLine : bytes) (lang : Language) : Prop :=
  exists shebang, In shebang (Shebangs lang) /\
                  strings.HasPrefix firstLine shebang = true.

(** The extension is one of the descriptor's. *)
Definition extMatches (ext : bytes) (lang : Language) : Prop :=
  In ext (Extensions lang).

(** No shebang decides: the line does not start with ["#!"], or no
    descriptor has a matching shebang. *)
Definition noShebang (languages : list Language) (firstLine : bytes) : Prop :=
  strings.HasPrefix firstLine "#!" = false \/
  Forall (fun l => ~ shebangMatches firstLine l) languages.

(** The world after some more events. *)
Definition appendLog (evs : list event) (w : World) : World :=
  {| files := files w; faults := faults w; stdin := stdin w;
     stdinFault := stdinFault w; childFailure := childFailure w;
     log := log w ++ evs |}.

(** Whether a file exists in a world. *)
Definition existsIn (w : World) (p : bytes) : bool :=
  bool_decide (is_Some (files w !! p)).

(** [base_N.ext]: the numbered alternate of a path. *)
Definition alternateName (path : bytes) (N : Z) : bytes :=
  let base := filepath.Base path in
  let ext := filepath.Ext base in
  candidateName (filepath.Dir path) (strings.TrimSuffix base ext) ext N.

(** A computation that leaves the files alone. *)
Definition keepsFiles {A} (c : M A) : Prop :=
  forall w, files (snd (c w)) = files w.

(** The user's answer to the overwrite prompt is not a yes. *)
Definition declines {lib : GoLib} (w : World) : Prop :=
  stdinFault w = None /\
  let line := strings.TrimSpace (strings.ToLower (readLine (stdin w))) in
  line <> "y" /\ line <> "yes".

(** Some tail of [p] is [suffix] up to the case of ASCII letters. *)
Definition endsWithFold (p suffix : bytes) : Prop :=
  exists pre tail, p = pre ++ tail /\ map strings.lowerByte tail = suffix.

(** A computation only adds to the log. *)
Definition logGrows {A} (c : M A) : Prop :=
  forall w, log w `prefix_of` log (snd (c w)).

(** Two small worlds for the examples. *)
Definition outWorld : World :=
  withFiles [(lit "out.txt.bck", nl "b" ++ nl "a");
             (lit "out.txt", lit "old");
             (lit "out_1.txt", lit "older")]
            (nl "n").

Definition scriptWorld : World :=
  withFiles [(lit "tool", nl "#!/usr/bin/env python3" ++ nl "print(1)");
             (lit "a.txt", nl "1" ++ nl "2")]
            [].

(** The user's answer to the overwrite prompt is a yes. *)
Definition accepts {lib : GoLib} (w : World) : Prop :=
  stdinFault w = None /\
  let line := strings.TrimSpace (strings.ToLower (readLine (stdin w))) in
  line = lit "y" \/ line = lit "yes".

(** A command that gets past the check of the file name. *)
Definition readsInput {lib : GoLib} (cmd inPath : bytes) : Prop :=
  cmd = lit "encode" \/
  ((cmd = lit "decode" \/ cmd = lit "run") /\
   strings.HasSuffix (strings.ToLower inPath) ".bck" = true).

(** More worlds for the examples. *)
Definition yesWorld : World :=
  withFiles [(lit "out.txt.bck", nl "b" ++ nl "a"); (lit "out.txt", lit "old")]
            (nl "y").

Definition deafWorld : World :=
  {| files := files yesWorld; faults := empty; stdin := [];
     stdinFault := Some (lit "read /dev/stdin: input/output error");
     childFailure := None; log := [] |}.


Definition pythonWorld : World :=
  withFiles [(lit "hello.py.bck", nl "print(2)" ++ nl "print(1)");
             (lit "notes.txt.bck", nl "b" ++ nl "a")]
            [].

(** ** The model at work *)

Example split_crlf :
  splitLinesPreserveEndings ("a" ++ [CR; LF] ++ "b" ++ [CR; LF])
  = ["a" ++ [CR; LF]; "b" ++ [CR; LF]].
Proof. reflexivity. Qed.

Example split_no_final_newline :
  splitLinesPreserveEndings (nl "a" ++ nl "b" ++ "c") = [nl "a"; nl "b"; nl "c"].
Proof. reflexivity. Qed.

Example encode_abc_unterminated :
  encodeBytes (nl "a" ++ nl "b" ++ "c") = marker ++ nl "c" ++ nl "b" ++ nl "a".
Proof. reflexivity. Qed.

Example decode_abc_unterminated :
  decodeBytes (marker ++ nl "c" ++ nl "b" ++ nl "a") = nl "a" ++ nl "b" ++ "c".
Proof. reflexivity. Qed.

Example Clean_examples :
  filepath.Clean "a//b/./c/.." = "a/b" /\
  filepath.Clean "/../a" = "/a" /\
  filepath.Clean "../../a/.." = "../.." /\
  filepath.Clean "./" = "." /\
  filepath.Clean "/" = "/".
Proof. repeat split; reflexivity. Qed.

Example Dir_Base_Ext_examples :
  filepath.Dir "/path/to/file.txt.BCK" = "/path/to" /\
  filepath.Base "/path/to/file.txt.BCK" = "file.txt.BCK" /\
  filepath.Dir "file.txt" = "." /\
  filepath.Base "dir/" = "dir" /\
  filepath.Dir "dir/" = "dir" /\
  filepath.Base "///" = "/" /\
  filepath.Ext "a/b.c/out.tar.gz" = ".gz" /\
  filepath.Ext "a.b/out" = "" /\
  filepath.Join [lit "."; lit "out_1.txt"] = "out_1.txt" /\
  filepath.Join [lit "/tmp"; lit "x"] = "/tmp/x".
Proof. repeat split; reflexivity. Qed.

(** * Properties *)

(** ** The helpers compute what their loops are meant to compute *)

Lemma splitLoop_linesFrom rest : forall done cur lines,
  finishSplit (done ++ cur ++ rest)
    (splitLoop (done ++ cur ++ rest) (length rest)
       (length done + length cur) (length done) lines)
  = lines ++ linesFrom cur rest.
Proof.
  induction rest as [|c rest IH]; intros done cur lines; simpl.
  - rewrite app_nil_r, length_app, drop_app_length.
    destruct cur as [|x cur]; simpl.
    + rewrite bool_decide_eq_false_2 by lia. now rewrite app_nil_r.
    + rewrite bool_decide_eq_true_2 by lia. reflexivity.
  - assert (Hi : (done ++ cur ++ c :: rest) !! (length done + length cur) = Some c).
    { rewrite app_assoc, lookup_app_r; rewrite length_app; [|lia].
      now rewrite Nat.sub_diag. }
    rewrite Hi.
    destruct (decide (c = LF)) as [->|Hc].
    + rewrite !bool_decide_eq_true_2 by reflexivity.
      assert (Hs : slice (done ++ cur ++ LF :: rest) (length done)
                     (length done + length cur + 1) = cur ++ [LF]).
      { unfold slice. rewrite drop_app_length.
        replace (length done + length cur + 1 - length done) with (length (cur ++ [LF]))
          by (rewrite length_app; simpl; lia).
        change (LF :: rest) with ([LF] ++ rest). rewrite app_assoc.
        apply take_app_length. }
      rewrite Hs.
      specialize (IH (done ++ cur ++ [LF]) [] (lines ++ [cur ++ [LF]])).
      simpl in IH.
      replace ((done ++ cur ++ [LF]) ++ rest) with (done ++ cur ++ LF :: rest) in IH
        by (rewrite <- !app_assoc; reflexivity).
      replace (length (done ++ cur ++ [LF]) + 0) with (length done + length cur + 1) in IH
        by (rewrite !length_app; simpl; lia).
      replace (length (done ++ cur ++ [LF])) with (length done + length cur + 1) in IH
        by (rewrite !length_app; simpl; lia).
      rewrite IH, <- app_assoc. reflexivity.
    + rewrite (bool_decide_eq_false_2 (Some c = Some LF)) by congruence.
      rewrite (bool_decide_eq_false_2 (c = LF)) by assumption.
      specialize (IH done (cur ++ [c]) lines).
      replace (done ++ (cur ++ [c]) ++ rest) with (done ++ cur ++ c :: rest) in IH
        by (rewrite <- !app_assoc; reflexivity).
      replace (length done + length (cur ++ [c])) with (length done + length cur + 1) in IH
        by (rewrite !length_app; simpl; lia).
      exact IH.
Qed.

Lemma split_linesFrom b : splitLinesPreserveEndings b = linesFrom [] b.
Proof.
  pose proof (splitLoop_linesFrom b [] [] []) as Hs. simpl in Hs.
  unfold splitLinesPreserveEndings.
  unfold finishSplit in Hs.
  destruct (splitLoop b (length b) 0 0 []) as [start lines]. exact Hs.
Qed.

Lemma reverseLoop_rev {T} n : forall (mid pre post : list T),
  length mid <= 2 * n ->
  reverseLoop n (length pre) (length pre + length mid - 1) (pre ++ mid ++ post)
  = pre ++ rev mid ++ post.
Proof.
  induction n as [|n IH]; intros mid pre post Hlen.
  - destruct mid; [reflexivity | simpl in Hlen; lia].
  - simpl. destruct mid as [|x mid].
    { rewrite bool_decide_eq_false_2 by (simpl; lia). reflexivity. }
    destruct mid as [|y mid _] using rev_ind.
    { rewrite bool_decide_eq_false_2 by (simpl; lia). reflexivity. }
    rewrite bool_decide_eq_true_2 by (simpl; rewrite length_app; simpl; lia).
    assert (Hi : (pre ++ (x :: mid ++ [y]) ++ post) !! length pre = Some x).
    { rewrite (lookup_app_r pre) by reflexivity. now rewrite Nat.sub_diag. }
    assert (Hj : (pre ++ (x :: mid ++ [y]) ++ post) !!
                 (length pre + length (x :: mid ++ [y]) - 1) = Some y).
    { simpl. rewrite length_app. simpl.
      rewrite (lookup_app_r pre) by lia.
      replace (length pre + S (length mid + 1) - 1 - length pre) with (S (length mid)) by lia.
      simpl. rewrite <- app_assoc. rewrite (lookup_app_r mid) by reflexivity.
      now rewrite Nat.sub_diag. }
    rewrite Hi, Hj.
    assert (Hs : <[length pre := y]> (<[length pre + length (x :: mid ++ [y]) - 1 := x]>
                   (pre ++ (x :: mid ++ [y]) ++ post))
                 = (pre ++ [y]) ++ mid ++ (x :: post)).
    { replace (length pre + length (x :: mid ++ [y]) - 1)
        with (length pre + S (length mid)) by (simpl; rewrite length_app; simpl; lia).
      rewrite (insert_app_r pre). simpl. rewrite <- app_assoc.
      replace (length mid) with (length mid + 0) by lia.
      rewrite (insert_app_r mid). simpl.
      replace (length pre) with (length pre + 0) at 1 by lia.
      rewrite (insert_app_r pre). simpl. rewrite <- !app_assoc. reflexivity. }
    rewrite Hs.
    specialize (IH mid (pre ++ [y]) (x :: post)).
    replace (length (pre ++ [y])) with (length pre + 1) in IH by (rewrite length_app; simpl; lia).
    replace (length pre + length (x :: mid ++ [y]) - 1 - 1) with (length pre + 1 + length mid - 1)
      by (simpl; rewrite length_app; simpl; lia).
    rewrite IH by (simpl in Hlen; rewrite length_app in Hlen; simpl in Hlen; lia).
    simpl. rewrite rev_app_distr. simpl. rewrite <- !app_assoc. reflexivity.
Qed.

Lemma reverse_rev {T} (s : list T) : reverse s = rev s.
Proof.
  unfold reverse.
  pose proof (reverseLoop_rev (length s) s [] []) as Hr. simpl in Hr.
  rewrite !app_nil_r in Hr. apply Hr. lia.
Qed.

Lemma fold_left_app_concat (chunks : list bytes) : forall acc,
  fold_left (fun out c => out ++ c) chunks acc = acc ++ concat chunks.
Proof.
  induction chunks as [|c chunks IH]; intros acc; simpl.
  - now rewrite app_nil_r.
  - rewrite IH, <- app_assoc. reflexivity.
Qed.

Lemma join_concat chunks : join chunks = concat chunks.
Proof.
  destruct chunks as [|c chunks]; [reflexivity|].
  unfold join. now rewrite fold_left_app_concat.
Qed.

(** ** Line records *)

Lemma endsWithNewline_last b : endsWithNewline b = bool_decide (last b = Some LF).
Proof.
  unfold endsWithNewline. rewrite last_lookup.
  destruct b as [|c b]; [reflexivity|].
  rewrite (bool_decide_eq_true_2 (0 < length (c :: b))) by (simpl; lia).
  simpl. now rewrite Nat.sub_0_r.
Qed.

Lemma linesFrom_line body : forall cur rest,
  ~ In LF body ->
  linesFrom cur (body ++ LF :: rest) = (cur ++ body ++ [LF]) :: linesFrom [] rest.
Proof.
  induction body as [|c body IH]; intros cur rest Hno; simpl.
  - reflexivity.
  - rewrite bool_decide_eq_false_2 by (intros ->; apply Hno; now left).
    rewrite IH by (intros Hin; apply Hno; now right).
    now rewrite <- app_assoc.
Qed.

Lemma linesFrom_partial body : forall cur,
  ~ In LF body ->
  linesFrom cur body =
  if bool_decide (cur ++ body = []) then [] else [cur ++ body ++ [LF]].
Proof.
  induction body as [|c body IH]; intros cur Hno; simpl.
  - now rewrite !app_nil_r.
  - rewrite bool_decide_eq_false_2 by (intros ->; apply Hno; now left).
    rewrite IH by (intros Hin; apply Hno; now right).
    rewrite <- !app_assoc. simpl.
    destruct cur; reflexivity.
Qed.

Lemma linesFrom_nil cur b : linesFrom cur b = [] -> cur = [] /\ b = [].
Proof.
  revert cur. induction b as [|c b IH]; intros cur; simpl.
  - case_bool_decide; [auto | discriminate].
  - case_bool_decide; [discriminate|].
    intros Hn. apply IH in Hn as [Hc _]. now destruct cur.
Qed.

Lemma linesFrom_concat b : forall cur,
  concat (linesFrom cur b) =
  cur ++ b ++
  (if bool_decide (cur ++ b = []) || bool_decide (last b = Some LF)
   then [] else [LF]).
Proof.
  induction b as [|c b IH]; intros cur.
  - simpl. rewrite app_nil_r. destruct cur; simpl; [reflexivity|].
    now rewrite app_nil_r.
  - cbn [linesFrom].
    rewrite (bool_decide_eq_false_2 (cur ++ c :: b = [])) by (now destruct cur).
    cbn [orb].
    destruct (decide (c = LF)) as [->|Hc].
    + rewrite (bool_decide_eq_true_2 (LF = LF)) by reflexivity.
      cbn [concat]. rewrite IH. cbn [app].
      rewrite <- app_assoc. cbn [app]. do 3 f_equal.
      destruct b as [|d b]; reflexivity.
    + rewrite (bool_decide_eq_false_2 (c = LF)) by assumption.
      rewrite IH. rewrite <- !app_assoc. cbn [app].
      rewrite (bool_decide_eq_false_2 (cur ++ c :: b = [])) by (now destruct cur).
      cbn [orb]. do 3 f_equal.
      destruct b as [|d b]; [|reflexivity].
      cbn [last].
      rewrite (bool_decide_eq_false_2 (Some c = Some LF)) by congruence.
      now rewrite (bool_decide_eq_false_2 (None = Some LF)).
Qed.

Lemma linesFrom_records b : forall cur,
  ~ In LF cur -> Forall isRecord (linesFrom cur b).
Proof.
  induction b as [|c b IH]; intros cur Hno; simpl.
  - case_bool_decide; constructor; [|constructor]. now exists cur.
  - case_bool_decide.
    + constructor; [now exists cur | apply IH; intros []].
    + apply IH. rewrite in_app_iff. intros [?|[->|[]]]; [auto | congruence].
Qed.

Lemma split_records b : Forall isRecord (splitLinesPreserveEndings b).
Proof. rewrite split_linesFrom. apply linesFrom_records. intros []. Qed.

Lemma split_of_records rs :
  Forall isRecord rs -> splitLinesPreserveEndings (concat rs) = rs.
Proof.
  rewrite split_linesFrom.
  induction 1 as [|r rs (body & -> & Hno) _ IH]; [reflexivity|].
  simpl. rewrite <- app_assoc. simpl.
  rewrite linesFrom_line by assumption. now rewrite IH.
Qed.

Lemma isRecord_last r : isRecord r -> last r = Some LF.
Proof. intros (body & -> & _). apply last_snoc. Qed.

Lemma last_concat_records rs :
  rs <> [] -> Forall isRecord rs -> last (concat rs) = Some LF.
Proof.
  intros Hne Hrs. destruct rs as [|r rs _] using rev_ind; [congruence|].
  apply Forall_app in Hrs as [_ Hr]. inversion Hr as [|? ? Hrec _]; subst.
  rewrite concat_app. simpl. rewrite app_nil_r, last_app.
  now rewrite (isRecord_last r).
Qed.

Lemma marker_isRecord : isRecord marker.
Proof.
  exists (lit "##BCKL.NNL##"). split; [reflexivity|].
  vm_compute. intuition discriminate.
Qed.

(** What [encodeBytes] does, in terms of the records. *)
Lemma encodeBytes_unfold data :
  encodeBytes data =
  (if negb (endsWithNewline data) && bool_decide (0 < length data)
   then marker else [])
  ++ concat (rev (splitLinesPreserveEndings data)).
Proof.
  unfold encodeBytes. rewrite reverse_rev.
  destruct (negb (endsWithNewline data) && bool_decide (0 < length data));
    rewrite join_concat; reflexivity.
Qed.

Lemma split_nonempty b : b <> [] -> splitLinesPreserveEndings b <> [].
Proof.
  intros Hb Hs. rewrite split_linesFrom in Hs.
  apply linesFrom_nil in Hs as [_ ?]. contradiction.
Qed.

Lemma split_concat b :
  concat (splitLinesPreserveEndings b) =
  if bool_decide (b = []) || endsWithNewline b then b else b ++ [LF].
Proof.
  rewrite split_linesFrom, linesFrom_concat, endsWithNewline_last. simpl.
  destruct (bool_decide (b = []) || bool_decide (last b = Some LF));
    [now rewrite app_nil_r | reflexivity].
Qed.

(** C4 (LineSplitter contract): the empty buffer has no records; a line is
    cut after its newline and keeps every byte in front of it, a carriage
    return included; a last line without newline becomes a record of its
    own with one newline appended; and the records put together give back
    the buffer when it is empty or ends in a newline, and the buffer
    followed by one more newline otherwise. *)
Theorem splitLines_contract :
  splitLinesPreserveEndings [] = [] /\
  (forall body rest : bytes, ~ In LF body ->
     splitLinesPreserveEndings (body ++ LF :: rest)
     = (body ++ [LF]) :: splitLinesPreserveEndings rest) /\
  (forall body : bytes, body <> [] -> ~ In LF body ->
     splitLinesPreserveEndings body = [body ++ [LF]]) /\
  (forall b : bytes,
     concat (splitLinesPreserveEndings b)
     = if bool_decide (b = []) || endsWithNewline b then b else b ++ [LF]).
Proof.
  split; [reflexivity|]. split; [|split].
  - intros body rest Hno. rewrite !split_linesFrom.
    now rewrite linesFrom_line.
  - intros body Hne Hno. rewrite split_linesFrom, linesFrom_partial by assumption.
    simpl. now rewrite bool_decide_eq_false_2.
  - apply split_concat.
Qed.

Lemma splitLines_contract_witness :
  splitLinesPreserveEndings ("a" ++ [CR; LF] ++ "b" ++ [LF] ++ "c")
  = ["a" ++ [CR; LF]; "b" ++ [LF]; "c" ++ [LF]].
Proof.
  destruct splitLines_contract as (_ & Hline & Hpart & _).
  change ("a" ++ [CR; LF] ++ "b" ++ [LF] ++ "c")
    with (("a" ++ [CR]) ++ LF :: (lit "b" ++ LF :: lit "c")).
  rewrite Hline by (vm_compute; intuition discriminate).
  rewrite Hline by (vm_compute; intuition discriminate).
  rewrite Hpart; [reflexivity | discriminate | vm_compute; intuition discriminate].
Defined.

(** C10: every record of every buffer ends in a newline; so does the
    encoding of every non-empty buffer; hence the test by which [encode]
    decides to write the marker is false on every encoded buffer. *)
Theorem records_end_with_newline (b : bytes) :
  Forall (fun r => last r = Some LF) (splitLinesPreserveEndings b) /\
  (b <> [] -> last (encodeBytes b) = Some LF) /\
  negb (endsWithNewline (encodeBytes b)) && bool_decide (0 < length (encodeBytes b))
  = false.
Proof.
  assert (Hlast : b <> [] -> last (encodeBytes b) = Some LF).
  { intros Hb. rewrite encodeBytes_unfold.
    assert (Hrev : last (concat (rev (splitLinesPreserveEndings b))) = Some LF).
    { apply last_concat_records.
      - intros Hr. apply (split_nonempty b Hb).
        apply (f_equal (@rev bytes)) in Hr. now rewrite rev_involutive in Hr.
      - apply Forall_rev, split_records. }
    rewrite last_app, Hrev. reflexivity. }
  split; [|split; [exact Hlast|]].
  - eapply Forall_impl; [apply split_records|]. apply isRecord_last.
  - destruct b as [|c b]; [reflexivity|].
    rewrite endsWithNewline_last, Hlast by discriminate.
    now rewrite bool_decide_eq_true_2.
Qed.

Lemma records_end_with_newline_witness :
  last (encodeBytes "no newline") = Some LF.
Proof. apply (records_end_with_newline "no newline"). discriminate. Defined.

(** C6 (reversal correctness): the three lines 1, 2, 3 are encoded as 3, 2,
    1; and for every non-empty buffer that ends in a newline the records
    make up the buffer, the encoding is the records in reverse order with
    nothing in front, and [reverse] puts at index [i] the record that was
    at index [len-1-i] (so the middle one of an odd number stays). *)
Theorem encode_reverses_records :
  encodeBytes (nl "1" ++ nl "2" ++ nl "3") = nl "3" ++ nl "2" ++ nl "1" /\
  forall b : bytes, b <> [] -> last b = Some LF ->
    let records := splitLinesPreserveEndings b in
    concat records = b /\
    encodeBytes b = concat (rev records) /\
    forall i, i < length records ->
      reverse records !! i = records !! (length records - 1 - i).
Proof.
  split; [reflexivity|].
  intros b Hne Hlast records.
  assert (Hend : endsWithNewline b = true).
  { rewrite endsWithNewline_last. now apply bool_decide_eq_true_2. }
  split; [|split].
  - unfold records. rewrite split_concat, Hend, orb_true_r. reflexivity.
  - rewrite encodeBytes_unfold, Hend. reflexivity.
  - intros i Hi. rewrite reverse_rev, rev_alt.
    change (rev_append records []) with (list.reverse records).
    rewrite reverse_lookup by lia. f_equal. lia.
Qed.

Lemma encode_reverses_records_witness :
  encodeBytes (nl "x" ++ nl "y") = concat (rev (splitLinesPreserveEndings (nl "x" ++ nl "y"))).
Proof.
  destruct encode_reverses_records as [_ Hgen].
  apply (Hgen (nl "x" ++ nl "y")); [discriminate | reflexivity].
Defined.

(** The buffer [markerLast] is what encoding the one-line file "a" (no
    newline at its end) twice produces. *)
Example markerLast_from_double_encoding :
  encodeBytes (encodeBytes "a") = markerLast.
Proof. vm_compute. reflexivity. Qed.

(** C1 (round-trip law), at a buffer the code loses: the two lines "a" and
    "##BCKL.NNL##", both terminated, are encoded with the marker text in
    front, and decoding gives "a" without newline instead of the buffer. *)
Theorem roundtrip_lost_on_marker_line :
  encodeBytes markerLast = marker ++ nl "a" /\
  decodeBytes (encodeBytes markerLast) = "a" /\
  decodeBytes (encodeBytes markerLast) <> markerLast.
Proof. repeat split; try (vm_compute; reflexivity); vm_compute; discriminate. Qed.

(** C2 (marker correctness), at the same buffer: it ends in a newline, and
    its encoding begins with the marker record all the same. *)
Theorem marker_prefix_on_terminated_input :
  endsWithNewline markerLast = true /\
  strings.HasPrefix (encodeBytes markerLast) marker = true.
Proof. split; vm_compute; reflexivity. Qed.

(** C3 (double transform), at the same buffer: encoding it twice gives it
    back, and decoding twice then gives "a" without newline. *)
Theorem double_roundtrip_lost_on_marker_line :
  encodeBytes (encodeBytes markerLast) = markerLast /\
  decodeBytes (decodeBytes (encodeBytes (encodeBytes markerLast))) = "a" /\
  decodeBytes (decodeBytes (encodeBytes (encodeBytes markerLast))) <> markerLast.
Proof. repeat split; try (vm_compute; reflexivity); vm_compute; discriminate. Qed.

(** ** Where the round trip does hold *)

(** [decodeBytes] on a buffer made of records that does not start with the
    marker. *)
Lemma decodeBytes_plain rs :
  Forall isRecord rs -> head rs <> Some marker ->
  decodeBytes (concat rs) = concat (rev rs).
Proof.
  intros Hrs Hhead. unfold decodeBytes. rewrite (split_of_records rs Hrs).
  destruct rs as [|l0 rest]; [reflexivity|].
  rewrite bool_decide_eq_false_2 by (intros ->; now apply Hhead).
  cbn [andb]. now rewrite reverse_rev, join_concat.
Qed.

(** [decodeBytes] on the marker followed by records: the records in reverse
    order, without the last newline. *)
Lemma decodeBytes_marked init body :
  Forall isRecord (init ++ [body ++ [LF]]) ->
  decodeBytes (marker ++ concat (rev (init ++ [body ++ [LF]])))
  = concat init ++ body.
Proof.
  intros Hrs. unfold decodeBytes.
  change (marker ++ concat (rev (init ++ [body ++ [LF]])))
    with (concat (marker :: rev (init ++ [body ++ [LF]]))).
  rewrite split_of_records
    by (constructor; [apply marker_isRecord | now apply Forall_rev]).
  rewrite (bool_decide_eq_true_2 (marker = marker)) by reflexivity.
  rewrite reverse_rev, rev_involutive, length_app. cbn [length].
  rewrite bool_decide_eq_true_2 by lia. cbn [andb].
  replace (length init + 1 - 1) with (length init + 0) by lia.
  rewrite lookup_app_r by lia.
  replace (length init + 0 - length init) with 0 by lia. cbn [lookup list_lookup].
  rewrite endsWithNewline_last, last_snoc.
  rewrite (bool_decide_eq_true_2 (Some LF = Some LF)) by reflexivity.
  rewrite insert_app_r. cbn [insert list_insert].
  rewrite length_app. cbn [length].
  replace (length body + 1 - 1) with (length body) by lia.
  rewrite take_app_length, join_concat, concat_app. simpl.
  now rewrite app_nil_r.
Qed.

(** The round trip holds for every buffer except those that end in a
    newline and have the marker text as their last line. *)
Lemma roundtrip_unless_marker_last (B : bytes) :
  endsWithNewline B = false \/ last (splitLinesPreserveEndings B) <> Some marker ->
  decodeBytes (encodeBytes B) = B.
Proof.
  intros Hok. destruct (decide (B = [])) as [->|Hne]; [reflexivity|].
  rewrite encodeBytes_unfold.
  rewrite (bool_decide_eq_true_2 (0 < length B)) by (destruct B; [congruence | simpl; lia]).
  pose proof (split_records B) as Hrs.
  pose proof (split_concat B) as Hcat.
  rewrite (bool_decide_eq_false_2 (B = [])) in Hcat by exact Hne. cbn [orb] in Hcat.
  destruct (endsWithNewline B) eqn:Hend; cbn [negb andb].
  - destruct Hok as [|Hlast]; [discriminate|]. cbn [app].
    rewrite decodeBytes_plain.
    + now rewrite rev_involutive.
    + now apply Forall_rev.
    + rewrite rev_alt.
      change (rev_append (splitLinesPreserveEndings B) [])
        with (list.reverse (splitLinesPreserveEndings B)).
      now rewrite head_reverse.
  - destruct (splitLinesPreserveEndings B) as [|r rs _] using rev_ind.
    { destruct B; [congruence | discriminate]. }
    pose proof Hrs as Hrs'.
    apply Forall_app in Hrs' as [_ Hr]. inversion Hr as [|? ? (body & -> & _) _]; subst.
    rewrite decodeBytes_marked by exact Hrs.
    rewrite concat_app in Hcat. simpl in Hcat. rewrite app_nil_r, app_assoc in Hcat.
    now apply app_inj_tail in Hcat as [-> _].
Qed.

(** The round trip is lost on every buffer that ends in a newline and has
    the marker text as its last line: the decoder takes that line for the
    marker and drops it, with the newline of the line before it. *)
Lemma roundtrip_lost_when_marker_last (B : bytes) :
  endsWithNewline B = true ->
  last (splitLinesPreserveEndings B) = Some marker ->
  length (decodeBytes (encodeBytes B)) < length B.
Proof.
  intros Hend Hlast.
  pose proof (split_records B) as Hrs.
  pose proof (split_concat B) as Hcat.
  rewrite Hend, orb_true_r in Hcat.
  rewrite encodeBytes_unfold, Hend. cbn [negb andb app].
  destruct (splitLinesPreserveEndings B) as [|r init _] using rev_ind;
    [discriminate|].
  rewrite last_snoc in Hlast. injection Hlast as ->.
  apply Forall_app in Hrs as [Hinit _].
  rewrite <- Hcat, rev_app_distr. cbn [rev app concat].
  rewrite concat_app, length_app. cbn [concat]. rewrite app_nil_r.
  destruct init as [|r init' _] using rev_ind.
  - vm_compute. lia.
  - pose proof Hinit as Hinit'.
    apply Forall_app in Hinit' as [_ Hr]. inversion Hr as [|? ? (body & -> & _) _]; subst.
    rewrite decodeBytes_marked by exact Hinit.
    rewrite concat_app, !length_app. cbn [concat length]. rewrite app_nil_r, !length_app.
    cbn [length]. lia.
Qed.

(** The marker is written in front of every non-empty buffer that does not
    end in a newline. *)
Lemma marker_written_when_unterminated (B : bytes) :
  B <> [] -> endsWithNewline B = false ->
  encodeBytes B = marker ++ concat (rev (splitLinesPreserveEndings B)).
Proof.
  intros Hne Hend. rewrite encodeBytes_unfold, Hend.
  rewrite bool_decide_eq_true_2 by (destruct B; [congruence | simpl; lia]).
  reflexivity.
Qed.

(** ** The language detector *)

Section Detector.

Context {lib : GoLib}.

Lemma shebangLoop_true firstLine shebangs :
  shebangLoop firstLine shebangs = true <->
  exists shebang, In shebang shebangs /\ strings.HasPrefix firstLine shebang = true.
Proof.
  induction shebangs as [|s rest IH]; simpl.
  - split; [discriminate | intros (? & [] & _)].
  - destruct (strings.HasPrefix firstLine s) eqn:Hs.
    + split; [|reflexivity]. intros _. exists s. auto.
    + rewrite IH. split.
      * intros (x & Hin & Hx). exists x. auto.
      * intros (x & [->|Hin] & Hx); [congruence|]. exists x. auto.
Qed.

Lemma extLoop_true ext exts : extLoop ext exts = true <-> In ext exts.
Proof.
  induction exts as [|e rest IH]; simpl.
  - split; [discriminate | intros []].
  - case_bool_decide as He.
    + split; auto.
    + rewrite IH. split; [auto|]. intros [->|?]; [congruence | assumption].
Qed.

Lemma shebangScan_first firstLine pre lang post :
  Forall (fun l => ~ shebangMatches firstLine l) pre ->
  shebangMatches firstLine lang ->
  shebangScan firstLine (pre ++ lang :: post) = Some lang.
Proof.
  intros Hpre Hlang. induction Hpre as [|l pre Hl _ IH]; simpl.
  - apply shebangLoop_true in Hlang. now rewrite Hlang.
  - destruct (shebangLoop firstLine (Shebangs l)) eqn:Hs; [|exact IH].
    apply shebangLoop_true in Hs. contradiction.
Qed.

Lemma shebangScan_none firstLine languages :
  Forall (fun l => ~ shebangMatches firstLine l) languages ->
  shebangScan firstLine languages = None.
Proof.
  induction 1 as [|l ls Hl _ IH]; simpl; [reflexivity|].
  destruct (shebangLoop firstLine (Shebangs l)) eqn:Hs; [|exact IH].
  apply shebangLoop_true in Hs. contradiction.
Qed.

Lemma extScan_first ext pre lang post :
  Forall (fun l => ~ extMatches ext l) pre ->
  extMatches ext lang ->
  extScan ext (pre ++ lang :: post) = Some lang.
Proof.
  intros Hpre Hlang. induction Hpre as [|l pre Hl _ IH]; simpl.
  - apply extLoop_true in Hlang. now rewrite Hlang.
  - destruct (extLoop ext (Extensions l)) eqn:Hs; [|exact IH].
    apply extLoop_true in Hs. contradiction.
Qed.

Lemma extScan_none ext languages :
  Forall (fun l => ~ extMatches ext l) languages ->
  extScan ext languages = None.
Proof.
  induction 1 as [|l ls Hl _ IH]; simpl; [reflexivity|].
  destruct (extLoop ext (Extensions l)) eqn:Hs; [|exact IH].
  apply extLoop_true in Hs. contradiction.
Qed.

Lemma detectIn_noShebang languages firstLine filePath :
  noShebang languages firstLine ->
  detectIn languages firstLine filePath =
  match extScan (strings.ToLower (filepath.Ext filePath)) languages with
  | Some lang => inr lang
  | None => inl (Errorf ("Error: No interpreter found for '"
                         ++ filepath.Base filePath ++ "'"))
  end.
Proof.
  unfold detectIn. intros [Hno|Hno].
  - now rewrite Hno.
  - rewrite (shebangScan_none _ _ Hno). now destruct (strings.HasPrefix firstLine "#!").
Qed.

Lemma detectLanguage_readable filePath content w :
  faults w !! filePath = None ->
  files w !! filePath = Some content ->
  fst (detectLanguage filePath w) =
  match detectIn getSupportedLanguages (firstLineOf content) filePath with
  | inr lang => Ok lang
  | inl err => Err err
  end.
Proof.
  intros Hf Hc. unfold detectLanguage, bind, orReturn, os.Open, bind, effect.
  cbn [emit faults files]. rewrite Hf, Hc.
  now destruct (detectIn getSupportedLanguages (firstLineOf content) filePath).
Qed.

(** C5 (detector priority), over any registry: when the trimmed first
    line starts with "#!", the first descriptor with a shebang that is a
    prefix of the line is returned, whatever the file is called; when no
    shebang decides, the first descriptor that lists the lower-cased
    extension is returned; when no extension matches either, the error
    names the file.  With the registry of the program, a readable file
    whose trimmed first line is "#!/usr/bin/env python3" and a file
    without shebang whose lower-cased extension is ".py" are both Python. *)
Theorem detector_priority :
  (forall languages firstLine filePath pre lang post,
      strings.HasPrefix firstLine "#!" = true ->
      languages = pre ++ lang :: post ->
      Forall (fun l => ~ shebangMatches firstLine l) pre ->
      shebangMatches firstLine lang ->
      detectIn languages firstLine filePath = inr lang) /\
  (forall languages firstLine filePath pre lang post,
      noShebang languages firstLine ->
      languages = pre ++ lang :: post ->
      Forall (fun l => ~ extMatches (strings.ToLower (filepath.Ext filePath)) l) pre ->
      extMatches (strings.ToLower (filepath.Ext filePath)) lang ->
      detectIn languages firstLine filePath = inr lang) /\
  (forall languages firstLine filePath,
      noShebang languages firstLine ->
      Forall (fun l => ~ extMatches (strings.ToLower (filepath.Ext filePath)) l)
             languages ->
      detectIn languages firstLine filePath =
      inl (Errorf ("Error: No interpreter found for '"
                   ++ filepath.Base filePath ++ "'"))) /\
  (forall w filePath content,
      faults w !! filePath = None ->
      files w !! filePath = Some content ->
      firstLineOf content = "#!/usr/bin/env python3" ->
      fst (detectLanguage filePath w) = Ok Python) /\
  (forall w filePath content,
      faults w !! filePath = None ->
      files w !! filePath = Some content ->
      strings.HasPrefix (firstLineOf content) "#!" = false ->
      strings.ToLower (filepath.Ext filePath) = ".py" ->
      fst (detectLanguage filePath w) = Ok Python).
Proof.
  split; [|split; [|split; [|split]]].
  - intros languages firstLine filePath pre lang post Hbang -> Hpre Hlang.
    unfold detectIn. rewrite Hbang.
    now rewrite (shebangScan_first _ _ _ _ Hpre Hlang).
  - intros languages firstLine filePath pre lang post Hno -> Hpre Hlang.
    rewrite (detectIn_noShebang _ _ _ Hno).
    now rewrite (extScan_first _ _ _ _ Hpre Hlang).
  - intros languages firstLine filePath Hno Hext.
    rewrite (detectIn_noShebang _ _ _ Hno).
    now rewrite (extScan_none _ _ Hext).
  - intros w filePath content Hf Hc Hline.
    rewrite (detectLanguage_readable _ _ _ Hf Hc), Hline. reflexivity.
  - intros w filePath content Hf Hc Hbang Hext.
    rewrite (detectLanguage_readable _ _ _ Hf Hc).
    unfold detectIn. rewrite Hbang, Hext. reflexivity.
Qed.

End Detector.

(** ** Output names *)

Lemma emit_appendLog ev w : emit ev w = appendLog [ev] w.
Proof. reflexivity. Qed.

Lemma appendLog_appendLog evs1 evs2 w :
  appendLog evs2 (appendLog evs1 w) = appendLog (evs1 ++ evs2) w.
Proof. unfold appendLog; simpl. now rewrite app_assoc. Qed.

Lemma fileExists_run p w :
  fileExists p w = (Ok (existsIn w p), appendLog [EvStat p] w).
Proof. reflexivity. Qed.

Lemma wrap64_small z : (- 2 ^ 63 <= z < 2 ^ 63)%Z -> wrap64 z = z.
Proof. intros Hz. unfold wrap64. rewrite Z.mod_small; lia. Qed.

Lemma nextAvailableLoop_least dir name ext n : forall i w fuel,
  (1 <= i)%Z -> (i + Z.of_nat n < 2 ^ 63)%Z ->
  (forall k, (i <= k < i + Z.of_nat n)%Z ->
             existsIn w (candidateName dir name ext k) = true) ->
  existsIn w (candidateName dir name ext (i + Z.of_nat n)) = false ->
  n < fuel ->
  exists evs,
    nextAvailableLoop fuel dir name ext i w
    = (Ok (candidateName dir name ext (i + Z.of_nat n)), appendLog evs w).
Proof.
  induction n as [|n IH]; intros i w fuel Hi Hmax Hused Hfree Hfuel;
    (destruct fuel as [|fuel]; [lia|]); cbn [nextAvailableLoop];
    unfold bind; rewrite fileExists_run.
  - replace (i + Z.of_nat 0)%Z with i in * by lia.
    rewrite Hfree. cbn. eauto.
  - rewrite (Hused i) by lia. cbn [negb].
    rewrite wrap64_small by lia.
    destruct (IH (i + 1)%Z (appendLog [EvStat (candidateName dir name ext i)] w) fuel)
      as [evs Hevs]; try lia.
    + intros k Hk. apply (Hused k). lia.
    + replace (i + 1 + Z.of_nat n)%Z with (i + Z.of_nat (S n))%Z by lia. exact Hfree.
    + rewrite Hevs, appendLog_appendLog.
      replace (i + 1 + Z.of_nat n)%Z with (i + Z.of_nat (S n))%Z by lia. eauto.
Qed.

Lemma keepsFiles_bind {A B} (c : M A) (k : A -> M B) :
  keepsFiles c -> (forall a, keepsFiles (k a)) -> keepsFiles (bind c k).
Proof.
  intros Hc Hk w. unfold bind. specialize (Hc w).
  destruct (c w) as [[a| |] w']; simpl in *; [|assumption..].
  now rewrite Hk.
Qed.

Lemma keepsFiles_orReturn {A} (c : M A) f : keepsFiles c -> keepsFiles (orReturn c f).
Proof.
  intros Hc w. unfold orReturn. specialize (Hc w).
  now destruct (c w) as [[a| |] w'].
Qed.

Lemma keepsFiles_effect ev : keepsFiles (effect ev).
Proof. intros w. reflexivity. Qed.

Lemma keepsFiles_ret {A} (a : A) : keepsFiles (ret a).
Proof. intros w. reflexivity. Qed.

Lemma keepsFiles_fail {A} e : keepsFiles (@fail A e).
Proof. intros w. reflexivity. Qed.

Lemma keepsFiles_Open p : keepsFiles (os.Open p).
Proof.
  intros w. unfold os.Open, bind, effect. cbn [emit faults files].
  destruct (faults w !! p), (files w !! p); reflexivity.
Qed.

Section Naming.

Context {lib : GoLib}.

Lemma keepsFiles_detectLanguage p : keepsFiles (detectLanguage p).
Proof.
  unfold detectLanguage. apply keepsFiles_bind.
  - apply keepsFiles_orReturn, keepsFiles_Open.
  - intros content.
    destruct (detectIn getSupportedLanguages (firstLineOf content) p);
      [apply keepsFiles_fail | apply keepsFiles_ret].
Qed.

Lemma keepsFiles_executeFile lang p : keepsFiles (executeFile lang p).
Proof.
  unfold executeFile. apply keepsFiles_bind; [apply keepsFiles_effect|].
  intros _ w. now destruct (childFailure w).
Qed.

Lemma keepsFiles_run_tail inPath outPath w :
  files (snd ((effect (EvStdout ("Decoded '" ++ filepath.Base inPath ++ "' " ++ arrow
                                 ++ " '" ++ filepath.Base outPath ++ "'" ++ [LF])) >>
               let* lang := detectLanguage outPath in
               effect (EvStdout ("Detected " ++ Name lang ++ ", running with "
                                 ++ Command lang ++ "..." ++ [LF])) >>
               executeFile lang outPath) w))
  = files w.
Proof.
  apply keepsFiles_bind; [apply keepsFiles_effect|]. intros _.
  apply keepsFiles_bind; [apply keepsFiles_detectLanguage|]. intros lang.
  apply keepsFiles_bind; [apply keepsFiles_effect|]. intros _.
  apply keepsFiles_executeFile.
Qed.

Lemma nextAvailableName_least path N w fuel :
  (1 <= N < 2 ^ 63)%Z ->
  (forall k, (1 <= k < N)%Z -> existsIn w (alternateName path k) = true) ->
  existsIn w (alternateName path N) = false ->
  Z.to_nat N <= fuel ->
  exists evs,
    nextAvailableName fuel path w = (Ok (alternateName path N), appendLog evs w).
Proof.
  intros HN Hused Hfree Hfuel. unfold nextAvailableName.
  destruct (nextAvailableLoop_least (filepath.Dir path)
              (strings.TrimSuffix (filepath.Base path) (filepath.Ext (filepath.Base path)))
              (filepath.Ext (filepath.Base path)) (Z.to_nat (N - 1)) 1 w fuel)
    as [evs Hevs]; try lia.
  - intros k Hk. apply Hused. lia.
  - replace (1 + Z.of_nat (Z.to_nat (N - 1)))%Z with N by lia. exact Hfree.
  - exists evs. rewrite Hevs. unfold alternateName.
    now replace (1 + Z.of_nat (Z.to_nat (N - 1)))%Z with N by lia.
Qed.

Lemma WriteFile_ok p d w :
  faults w !! p = None ->
  os.WriteFile p d w = (Ok tt, store p d (appendLog [EvWriteFile p d] w)).
Proof.
  intros Hf. unfold os.WriteFile, bind, effect. cbn [emit faults].
  now rewrite Hf.
Qed.

Lemma ReadFile_ok p d w :
  faults w !! p = None -> files w !! p = Some d ->
  os.ReadFile p w = (Ok d, appendLog [EvReadFile p] w).
Proof.
  intros Hf Hd. unfold os.ReadFile, bind, effect. cbn [emit faults files].
  now rewrite Hf, Hd.
Qed.

Lemma promptOverwrite_declined target w :
  declines w ->
  exists evs, promptOverwrite target w = (Ok false, appendLog evs w).
Proof.
  intros (Hfault & Hy & Hyes). unfold promptOverwrite, bind, effect.
  cbn [emit stdinFault stdin]. rewrite Hfault.
  rewrite (bool_decide_eq_false_2 _ Hy), (bool_decide_eq_false_2 _ Hyes).
  eexists. rewrite !emit_appendLog, appendLog_appendLog. reflexivity.
Qed.

(** C7 (collision-safe naming): if [N] is the least number from 1 on whose
    alternate [base_N.ext] of [path] does not exist, then with fuel [N] or
    more [nextAvailableName] returns that alternate and changes nothing but
    the log; [run], whose output path [path] exists, writes the decoded
    buffer there; and so does [decode] when the user declines to
    overwrite. *)
Theorem collision_safe_naming (w : World) (path : bytes) (N : Z) (fuel : nat) :
  (1 <= N < 2 ^ 63)%Z ->
  (forall k, (1 <= k < N)%Z -> existsIn w (alternateName path k) = true) ->
  existsIn w (alternateName path N) = false ->
  Z.to_nat N <= fuel ->
  (exists evs,
     nextAvailableName fuel path w = (Ok (alternateName path N), appendLog evs w)) /\
  (forall inPath data,
     strings.HasSuffix (strings.ToLower inPath) ".bck" = true ->
     stripLastBck inPath = path ->
     faults w !! inPath = None -> files w !! inPath = Some data ->
     existsIn w path = true ->
     faults w !! alternateName path N = None ->
     files (snd (run fuel inPath w))
     = <[alternateName path N := decodeBytes data]> (files w)) /\
  (forall inPath data,
     stripLastBck inPath = path ->
     faults w !! inPath = None -> files w !! inPath = Some data ->
     existsIn w path = true ->
     declines w ->
     faults w !! alternateName path N = None ->
     fst (decode fuel inPath w) = Ok tt /\
     files (snd (decode fuel inPath w))
     = <[alternateName path N := decodeBytes data]> (files w)).
Proof.
  intros HN Hused Hfree Hfuel.
  split; [now apply nextAvailableName_least|]. split.
  - intros inPath data Hsuf Hpath Hfault Hdata Hexists Hwr.
    unfold run. rewrite Hsuf. cbn [negb].
    unfold bind at 1. unfold orReturn at 1.
    rewrite (ReadFile_ok _ _ _ Hfault Hdata).
    unfold bind at 1. rewrite fileExists_run, Hpath.
    change (existsIn (appendLog [EvReadFile inPath] w) path) with (existsIn w path).
    rewrite Hexists, appendLog_appendLog.
    unfold bind at 1.
    destruct (nextAvailableName_least path N
                (appendLog ([EvReadFile inPath] ++ [EvStat path]) w) fuel HN Hused Hfree Hfuel)
      as [evs ->].
    rewrite appendLog_appendLog.
    unfold bind at 1. unfold orReturn at 1.
    rewrite WriteFile_ok by exact Hwr.
    rewrite keepsFiles_run_tail. reflexivity.
  - intros inPath data Hpath Hfault Hdata Hexists Hdecl Hwr.
    enough (exists w', decode fuel inPath w = (Ok tt, w') /\
                       files w' = <[alternateName path N := decodeBytes data]> (files w))
      as (w' & -> & Hw') by (split; [reflexivity | exact Hw']).
    unfold decode.
    unfold bind at 1. unfold orReturn at 1.
    rewrite (ReadFile_ok _ _ _ Hfault Hdata).
    unfold bind at 1. rewrite fileExists_run, Hpath.
    change (existsIn (appendLog [EvReadFile inPath] w) path) with (existsIn w path).
    rewrite Hexists, appendLog_appendLog.
    unfold bind at 1. unfold bind at 1.
    destruct (promptOverwrite_declined path
                (appendLog ([EvReadFile inPath] ++ [EvStat path]) w)) as [evs0 ->];
      [exact Hdecl|].
    cbn [negb]. rewrite appendLog_appendLog.
    destruct (nextAvailableName_least path N
                (appendLog (([EvReadFile inPath] ++ [EvStat path]) ++ evs0) w)
                fuel HN Hused Hfree Hfuel)
      as [evs ->].
    rewrite appendLog_appendLog.
    unfold bind at 1. unfold orReturn at 1.
    rewrite WriteFile_ok by exact Hwr.
    eexists. split; reflexivity.
Qed.

End Naming.

(** ** The format check *)

Lemma logGrows_bind {A B} (c : M A) (k : A -> M B) :
  logGrows c -> (forall a, logGrows (k a)) -> logGrows (bind c k).
Proof.
  intros Hc Hk w. unfold bind. specialize (Hc w).
  destruct (c w) as [[a| |] w']; simpl in *; [|assumption..].
  etrans; [exact Hc | apply Hk].
Qed.

Lemma logGrows_orReturn {A} (c : M A) f : logGrows c -> logGrows (orReturn c f).
Proof.
  intros Hc w. unfold orReturn. specialize (Hc w).
  now destruct (c w) as [[a| |] w'].
Qed.

Lemma logGrows_effect ev : logGrows (effect ev).
Proof. intros w. simpl. now apply prefix_app_r. Qed.

Lemma logGrows_ret {A} (a : A) : logGrows (ret a).
Proof. intros w. reflexivity. Qed.

Lemma logGrows_fail {A} e : logGrows (@fail A e).
Proof. intros w. reflexivity. Qed.

Lemma logGrows_hang {A} : logGrows (@hang A).
Proof. intros w. reflexivity. Qed.

Lemma logGrows_ReadFile p : logGrows (os.ReadFile p).
Proof.
  apply logGrows_bind; [apply logGrows_effect|]. intros _ w.
  destruct (faults w !! p), (files w !! p); reflexivity.
Qed.

Lemma logGrows_Open p : logGrows (os.Open p).
Proof.
  apply logGrows_bind; [apply logGrows_effect|]. intros _ w.
  destruct (faults w !! p), (files w !! p); reflexivity.
Qed.

Lemma logGrows_WriteFile p d : logGrows (os.WriteFile p d).
Proof.
  apply logGrows_bind; [apply logGrows_effect|]. intros _ w.
  destruct (faults w !! p); reflexivity.
Qed.

Lemma logGrows_Stat p : logGrows (os.Stat p).
Proof.
  apply logGrows_bind; [apply logGrows_effect|]. intros _ w. reflexivity.
Qed.

Lemma logGrows_nextAvailableLoop fuel dir name ext : forall i,
  logGrows (nextAvailableLoop fuel dir name ext i).
Proof.
  induction fuel as [|fuel IH]; intros i; cbn [nextAvailableLoop].
  - apply logGrows_hang.
  - apply logGrows_bind; [apply logGrows_Stat|].
    intros found. destruct (negb found); [apply logGrows_ret | apply IH].
Qed.

Create HintDb grows.
#[local] Hint Resolve logGrows_effect logGrows_ret logGrows_fail logGrows_hang
  logGrows_ReadFile logGrows_Open logGrows_WriteFile logGrows_Stat
  logGrows_nextAvailableLoop : grows.
#[local] Hint Extern 1 (logGrows (bind _ _)) =>
  apply logGrows_bind; [|intros ?] : grows.
#[local] Hint Extern 1 (logGrows (orReturn _ _)) => apply logGrows_orReturn : grows.
#[local] Hint Extern 2 (logGrows (if ?b then _ else _)) => destruct b : grows.

Section Format.

Context {lib : GoLib}.

Lemma logGrows_promptOverwrite target : logGrows (promptOverwrite target).
Proof.
  unfold promptOverwrite.
  apply logGrows_bind; [apply logGrows_effect|]. intros _.
  apply logGrows_bind; [apply logGrows_effect|]. intros _ w.
  destruct (stdinFault w); reflexivity.
Qed.

Lemma logGrows_detectLanguage p : logGrows (detectLanguage p).
Proof.
  unfold detectLanguage. apply logGrows_bind; [auto with grows|].
  intros content.
  destruct (detectIn getSupportedLanguages (firstLineOf content) p);
    auto with grows.
Qed.

Lemma logGrows_executeFile lang p : logGrows (executeFile lang p).
Proof.
  unfold executeFile. apply logGrows_bind; [auto with grows|].
  intros _ w. destruct (childFailure w); reflexivity.
Qed.

Lemma ReadFile_world p w : snd (os.ReadFile p w) = appendLog [EvReadFile p] w.
Proof.
  unfold os.ReadFile, bind, effect. cbn [emit faults files].
  destruct (faults w !! p), (files w !! p); reflexivity.
Qed.

(** A computation that starts by reading [p], whatever follows. *)
Lemma reads_first {A} p f (k : bytes -> M A) w :
  (forall d, logGrows (k d)) ->
  (log w ++ [EvReadFile p]) `prefix_of`
  log (snd (bind (orReturn (os.ReadFile p) f) k w)).
Proof.
  intros Hk. unfold bind, orReturn.
  pose proof (ReadFile_world p w) as Hw.
  destruct (os.ReadFile p w) as [[d| |] w']; simpl in Hw; subst w';
    [apply (Hk d) | reflexivity..].
Qed.

Lemma decode_reads_first fuel inPath w :
  (log w ++ [EvReadFile inPath]) `prefix_of` log (snd (decode fuel inPath w)).
Proof.
  unfold decode. apply reads_first. intros data.
  apply logGrows_bind; [apply logGrows_Stat|]. intros found.
  apply logGrows_bind.
  - destruct found; [|auto with grows].
    apply logGrows_bind; [apply logGrows_promptOverwrite|].
    intros overwrite. destruct (negb overwrite); [|auto with grows].
    apply logGrows_nextAvailableLoop.
  - intros outPath. auto with grows.
Qed.

Lemma run_reads_first fuel inPath w :
  strings.HasSuffix (strings.ToLower inPath) ".bck" = true ->
  (log w ++ [EvReadFile inPath]) `prefix_of` log (snd (run fuel inPath w)).
Proof.
  intros Hsuf. unfold run. rewrite Hsuf. cbn [negb].
  apply reads_first. intros data.
  apply logGrows_bind; [apply logGrows_Stat|]. intros found.
  apply logGrows_bind.
  - destruct found; [apply logGrows_nextAvailableLoop | auto with grows].
  - intros outPath.
    apply logGrows_bind; [auto with grows|]. intros _.
    apply logGrows_bind; [auto with grows|]. intros _.
    apply logGrows_bind; [apply logGrows_detectLanguage|]. intros lang.
    apply logGrows_bind; [auto with grows|]. intros _.
    apply logGrows_executeFile.
Qed.

Lemma orExit1_log (c : M unit) w :
  log (snd (c w)) `prefix_of` log (snd (orExit1 c w)).
Proof.
  unfold orExit1. destruct (c w) as [[[]| |] w']; simpl; [reflexivity| |reflexivity].
  now apply prefix_app_r.
Qed.

Lemma HasSuffix_map_lower (p suffix : bytes) :
  strings.HasSuffix (map strings.lowerByte p) suffix = true <->
  endsWithFold p suffix.
Proof.
  unfold strings.HasSuffix, endsWithFold. rewrite andb_true_iff, !bool_decide_eq_true.
  rewrite length_map. split.
  - intros [Hlen Hdrop].
    exists (take (length p - length suffix) p), (drop (length p - length suffix) p).
    split; [now rewrite take_drop|].
    rewrite <- skipn_map. exact Hdrop.
  - intros (pre & tail & -> & <-). rewrite !length_app, !length_map. split; [lia|].
    rewrite map_app.
    replace (length pre + length tail - length tail) with (length (map strings.lowerByte pre))
      by (rewrite length_map; lia).
    apply drop_app_length.
Qed.

Lemma ToLower_ascii p :
  strings.isASCII p = true -> strings.ToLower p = map strings.lowerByte p.
Proof. intros Hp. unfold strings.ToLower. now rewrite Hp. Qed.

(** C9 (invalid format): on ASCII paths the test of the program is the
    case-insensitive suffix test; when it fails, [decode] exits with status
    2 and [run] with status 1, having written one line to standard error
    and nothing else; when it passes, the first thing either does is to
    read the input file. *)
Theorem invalid_format_rejected :
  (forall p, strings.isASCII p = true ->
     (strings.HasSuffix (strings.ToLower p) ".bck" = true <-> endsWithFold p ".bck")) /\
  (forall fuel prog inPath w,
     strings.HasSuffix (strings.ToLower inPath) ".bck" = false ->
     main fuel [prog; lit "decode"; inPath] w
     = (Some 2%Z,
        appendLog [EvStderr ("Error: decode command only accepts .bck files" ++ [LF])] w) /\
     run fuel inPath w
     = (Err (Errorf "Error: run command only accepts .bck files"), w) /\
     main fuel [prog; lit "run"; inPath] w
     = (Some 1%Z,
        appendLog [EvStderr ("Error: run command only accepts .bck files" ++ [LF])] w)) /\
  (forall fuel prog inPath w,
     strings.HasSuffix (strings.ToLower inPath) ".bck" = true ->
     (log w ++ [EvReadFile inPath]) `prefix_of`
       log (snd (main fuel [prog; lit "decode"; inPath] w)) /\
     (log w ++ [EvReadFile inPath]) `prefix_of`
       log (snd (main fuel [prog; lit "run"; inPath] w))).
Proof.
  split; [|split].
  - intros p Hp. rewrite (ToLower_ascii p Hp). apply HasSuffix_map_lower.
  - intros fuel prog inPath w Hsuf.
    assert (Hrun : run fuel inPath w
                   = (Err (Errorf "Error: run command only accepts .bck files"), w)).
    { unfold run. now rewrite Hsuf. }
    split; [|split; [exact Hrun|]].
    + unfold main. rewrite Hsuf. reflexivity.
    + unfold main. cbn [bool_decide]. unfold orExit1. rewrite Hrun. reflexivity.
  - intros fuel prog inPath w Hsuf. split.
    + unfold main. rewrite Hsuf.
      change (bool_decide (lit "decode" = lit "encode")) with false.
      change (bool_decide (lit "decode" = lit "decode")) with true.
      cbn [negb]. etrans; [apply decode_reads_first | apply orExit1_log].
    + unfold main.
      change (bool_decide (lit "run" = lit "encode")) with false.
      change (bool_decide (lit "run" = lit "decode")) with false.
      change (bool_decide (lit "run" = lit "run")) with true.
      cbn iota. etrans; [apply (run_reads_first fuel inPath w Hsuf) | apply orExit1_log].
Qed.

End Format.

(** ** Paths *)

Lemma lastIndexFrom_bound s substr i :
  (-1 <= strings.lastIndexFrom s substr i <= Z.of_nat i)%Z.
Proof.
  induction i as [|i IH]; cbn [strings.lastIndexFrom];
    destruct (bool_decide _); lia.
Qed.

Lemma LastIndex_at_end s substr :
  length substr <= length s ->
  strings.LastIndex s substr = Z.of_nat (length s - length substr) <->
  drop (length s - length substr) s = substr.
Proof.
  intros Hlen. unfold strings.LastIndex.
  rewrite bool_decide_eq_false_2 by lia.
  set (i := length s - length substr).
  assert (Hslice : slice s i (i + length substr) = drop i s).
  { unfold slice. apply take_ge. rewrite length_drop. lia. }
  destruct i as [|i'] eqn:Hi; cbn [strings.lastIndexFrom]; rewrite Hslice;
    case_bool_decide as Hd; try tauto.
  - split; [lia | contradiction].
  - pose proof (lastIndexFrom_bound s substr i'). split; [lia | contradiction].
Qed.

(** The guard of [stripLastBck], for a lower-casing that keeps the length. *)
Lemma strip_guard (base lower : bytes) :
  length lower = length base ->
  let idx := strings.LastIndex lower ".bck" in
  bool_decide (0 <= idx)%Z && bool_decide (idx = Z.of_nat (length base) - 4)%Z
  = strings.HasSuffix lower ".bck" /\
  (strings.HasSuffix lower ".bck" = true -> Z.to_nat idx = length base - 4).
Proof.
  intros Hlen idx. unfold strings.HasSuffix.
  change (length (lit ".bck")) with 4.
  destruct (decide (4 <= length lower)) as [Hge|Hlt].
  - rewrite (bool_decide_eq_true_2 (4 <= length lower)) by assumption. cbn [andb].
    pose proof (LastIndex_at_end lower ".bck" Hge) as Hend.
    change (length (lit ".bck")) with 4 in Hend. fold idx in Hend.
    destruct (decide (drop (length lower - 4) lower = lit ".bck")) as [Hd|Hd].
    + rewrite (bool_decide_eq_true_2 _ Hd).
      apply Hend in Hd. split; [|lia].
      rewrite !bool_decide_eq_true_2 by lia. reflexivity.
    + rewrite (bool_decide_eq_false_2 _ Hd). split; [|discriminate].
      rewrite (bool_decide_eq_false_2 (idx = _)); [apply andb_false_r|].
      intros Hidx. apply Hd, Hend. lia.
  - rewrite (bool_decide_eq_false_2 (4 <= length lower)) by assumption. cbn [andb].
    split; [|discriminate].
    unfold idx, strings.LastIndex. change (length (lit ".bck")) with 4.
    rewrite (bool_decide_eq_true_2 (length lower < 4)) by lia. reflexivity.
Qed.

Lemma isASCII_length_ToLower {lib : GoLib} s :
  strings.isASCII s = true -> length (strings.ToLower s) = length s.
Proof. intros Hs. rewrite ToLower_ascii by assumption. apply length_map. Qed.

Lemma lastElem_nosep s : forall cur,
  ~ In Separator s -> filepath.lastElem cur s = cur ++ s.
Proof.
  induction s as [|c s IH]; intros cur Hno; simpl.
  - now rewrite app_nil_r.
  - rewrite bool_decide_eq_false_2 by (intros ->; apply Hno; now left).
    rewrite IH by (intros Hin; apply Hno; now right).
    now rewrite <- app_assoc.
Qed.

Lemma dropLeadingSep_nosep s : ~ In Separator s -> filepath.dropLeadingSep s = s.
Proof.
  destruct s as [|c s]; [reflexivity|]. intros Hno. simpl.
  now rewrite bool_decide_eq_false_2 by (intros ->; apply Hno; now left).
Qed.

Lemma Base_bare name :
  name <> [] -> ~ In Separator name -> filepath.Base name = name.
Proof.
  intros Hne Hno. unfold filepath.Base, filepath.stripTrailingSep.
  rewrite (bool_decide_eq_false_2 (name = lit "")) by exact Hne.
  rewrite dropLeadingSep_nosep by (rewrite <- in_rev; exact Hno).
  rewrite rev_involutive, lastElem_nosep by exact Hno. simpl.
  now rewrite (bool_decide_eq_false_2 (name = lit "")) by exact Hne.
Qed.

Lemma Dir_bare name : ~ In Separator name -> filepath.Dir name = ".".
Proof.
  intros Hno. unfold filepath.Dir. rewrite lastElem_nosep by exact Hno. simpl.
  now rewrite Nat.sub_diag.
Qed.

Section Convention.

Context {lib : GoLib}.

Lemma stripLastBck_ascii path :
  strings.isASCII (filepath.Base path) = true ->
  stripLastBck path =
  let base := filepath.Base path in
  let base :=
    if strings.HasSuffix (strings.ToLower base) ".bck"
    then take (length base - 4) base else base in
  if bool_decide (filepath.Dir path = ".") then base
  else filepath.Join [filepath.Dir path; base].
Proof.
  intros Hascii. unfold stripLastBck. cbv zeta.
  destruct (strip_guard (filepath.Base path) (strings.ToLower (filepath.Base path))
              (isASCII_length_ToLower _ Hascii)) as [-> Hidx].
  destruct (strings.HasSuffix (strings.ToLower (filepath.Base path)) ".bck");
    [now rewrite Hidx | reflexivity].
Qed.

Lemma stripLastBck_bare name :
  name <> [] -> ~ In Separator name -> strings.isASCII name = true ->
  stripLastBck name =
  if strings.HasSuffix (strings.ToLower name) ".bck"
  then take (length name - 4) name else name.
Proof.
  intros Hne Hno Hascii.
  rewrite stripLastBck_ascii by (now rewrite Base_bare).
  cbv zeta. rewrite Base_bare, Dir_bare by assumption. reflexivity.
Qed.

Lemma encode_writes inPath data w :
  faults w !! inPath = None -> files w !! inPath = Some data ->
  faults w !! (inPath ++ ".bck") = None ->
  fst (encode inPath w) = Ok tt /\
  files (snd (encode inPath w)) = <[inPath ++ ".bck" := encodeBytes data]> (files w).
Proof.
  intros Hfault Hdata Hwr.
  enough (exists w', encode inPath w = (Ok tt, w') /\
                     files w' = <[inPath ++ ".bck" := encodeBytes data]> (files w))
    as (w' & -> & Hw') by (split; [reflexivity | exact Hw']).
  unfold encode. unfold bind at 1. unfold orReturn at 1.
  rewrite (ReadFile_ok _ _ _ Hfault Hdata).
  unfold bind at 1. unfold orReturn at 1.
  rewrite WriteFile_ok by exact Hwr.
  eexists. split; reflexivity.
Qed.

Lemma decode_writes fuel inPath data w :
  faults w !! inPath = None -> files w !! inPath = Some data ->
  existsIn w (stripLastBck inPath) = false ->
  faults w !! stripLastBck inPath = None ->
  fst (decode fuel inPath w) = Ok tt /\
  files (snd (decode fuel inPath w))
  = <[stripLastBck inPath := decodeBytes data]> (files w).
Proof.
  intros Hfault Hdata Hfree Hwr.
  enough (exists w', decode fuel inPath w = (Ok tt, w') /\
                     files w' = <[stripLastBck inPath := decodeBytes data]> (files w))
    as (w' & -> & Hw') by (split; [reflexivity | exact Hw']).
  unfold decode. unfold bind at 1. unfold orReturn at 1.
  rewrite (ReadFile_ok _ _ _ Hfault Hdata).
  unfold bind at 1. rewrite fileExists_run.
  change (existsIn (appendLog [EvReadFile inPath] w) (stripLastBck inPath))
    with (existsIn w (stripLastBck inPath)).
  rewrite Hfree. unfold bind at 1. unfold ret at 1.
  unfold bind at 1. unfold orReturn at 1.
  rewrite WriteFile_ok by exact Hwr.
  eexists. split; reflexivity.
Qed.

Lemma run_writes fuel inPath data w :
  strings.HasSuffix (strings.ToLower inPath) ".bck" = true ->
  faults w !! inPath = None -> files w !! inPath = Some data ->
  existsIn w (stripLastBck inPath) = false ->
  faults w !! stripLastBck inPath = None ->
  files (snd (run fuel inPath w))
  = <[stripLastBck inPath := decodeBytes data]> (files w).
Proof.
  intros Hsuf Hfault Hdata Hfree Hwr.
  unfold run. rewrite Hsuf. cbn [negb].
  unfold bind at 1. unfold orReturn at 1.
  rewrite (ReadFile_ok _ _ _ Hfault Hdata).
  unfold bind at 1. rewrite fileExists_run.
  change (existsIn (appendLog [EvReadFile inPath] w) (stripLastBck inPath))
    with (existsIn w (stripLastBck inPath)).
  rewrite Hfree. unfold bind at 1. unfold ret at 1.
  unfold bind at 1. unfold orReturn at 1.
  rewrite WriteFile_ok by exact Hwr.
  rewrite keepsFiles_run_tail. reflexivity.
Qed.

(** C8 (naming convention), as the code has it: [encode] writes to the input path
    followed by ".bck"; [decode] and [run] write to [stripLastBck] of the
    input path when that is free; [stripLastBck] returns the cleaned
    directory of the path joined with its last element, an ASCII last
    element losing its last four bytes exactly when it ends in ".bck" in
    any case; so a bare ASCII file name comes back without one suffix, or
    as it is. *)
Theorem naming_convention :
  (forall inPath data w,
     faults w !! inPath = None -> files w !! inPath = Some data ->
     faults w !! (inPath ++ ".bck") = None ->
     fst (encode inPath w) = Ok tt /\
     files (snd (encode inPath w))
     = <[inPath ++ ".bck" := encodeBytes data]> (files w)) /\
  (forall fuel inPath data w,
     faults w !! inPath = None -> files w !! inPath = Some data ->
     existsIn w (stripLastBck inPath) = false ->
     faults w !! stripLastBck inPath = None ->
     files (snd (decode fuel inPath w))
     = <[stripLastBck inPath := decodeBytes data]> (files w) /\
     (strings.HasSuffix (strings.ToLower inPath) ".bck" = true ->
      files (snd (run fuel inPath w))
      = <[stripLastBck inPath := decodeBytes data]> (files w))) /\
  (forall path,
     strings.isASCII (filepath.Base path) = true ->
     stripLastBck path =
     let base := filepath.Base path in
     let base :=
       if strings.HasSuffix (strings.ToLower base) ".bck"
       then take (length base - 4) base else base in
     if bool_decide (filepath.Dir path = ".") then base
     else filepath.Join [filepath.Dir path; base]) /\
  (forall name,
     name <> [] -> ~ In Separator name -> strings.isASCII name = true ->
     stripLastBck name =
     if strings.HasSuffix (strings.ToLower name) ".bck"
     then take (length name - 4) name else name).
Proof.
  split; [|split; [|split]].
  - apply encode_writes.
  - intros fuel inPath data w Hfault Hdata Hfree Hwr. split.
    + now apply decode_writes.
    + intros Hsuf. now apply run_writes.
  - apply stripLastBck_ascii.
  - apply stripLastBck_bare.
Qed.

End Convention.

(** C8, as stated, fails: the last element of "./file.txt" does not end in
    ".bck", and the path is not returned unchanged but cleaned; likewise
    "./a.bck" gives "a" and not "./a". *)
Lemma stripLastBck_cleans_the_path :
  strings.HasSuffix (strings.ToLower (lib := asciiLib) (filepath.Base "./file.txt")) ".bck"
  = false /\
  stripLastBck (lib := asciiLib) "./file.txt" = "file.txt" /\
  stripLastBck (lib := asciiLib) "./file.txt" <> "./file.txt" /\
  stripLastBck (lib := asciiLib) "./a.bck" = "a".
Proof. repeat split; try (vm_compute; reflexivity). vm_compute. discriminate. Qed.

(** ** The theorems at concrete inputs *)

Lemma detector_priority_witness :
  fst (detectLanguage (lib := asciiLib) "tool" scriptWorld) = Ok Python.
Proof.
  destruct (@detector_priority asciiLib) as (_ & _ & _ & Hshebang & _).
  apply (Hshebang scriptWorld "tool" (nl "#!/usr/bin/env python3" ++ nl "print(1)"));
    vm_compute; reflexivity.
Defined.

Lemma collision_safe_naming_witness :
  alternateName "out.txt" 2 = "out_2.txt" /\
  fst (decode (lib := asciiLib) 2 "out.txt.bck" outWorld) = Ok tt /\
  files (snd (decode (lib := asciiLib) 2 "out.txt.bck" outWorld))
  = <[alternateName "out.txt" 2 := decodeBytes (nl "b" ++ nl "a")]> (files outWorld).
Proof.
  split; [vm_compute; reflexivity|].
  destruct (@collision_safe_naming asciiLib outWorld "out.txt" 2 2)
    as (_ & _ & Hdecode).
  - lia.
  - intros k Hk. assert (k = 1%Z) as -> by lia. vm_compute; reflexivity.
  - vm_compute; reflexivity.
  - lia.
  - apply (Hdecode "out.txt.bck" (nl "b" ++ nl "a")); try (vm_compute; reflexivity).
    repeat split; vm_compute; discriminate.
Defined.

Lemma naming_convention_witness :
  stripLastBck (lib := asciiLib) "file.bck.bck" = "file.bck" /\
  files (snd (encode "a.txt" scriptWorld))
  = <["a.txt" ++ ".bck" := encodeBytes (nl "1" ++ nl "2")]> (files scriptWorld).
Proof.
  destruct (@naming_convention asciiLib) as (Hencode & _ & _ & Hbare). split.
  - rewrite (Hbare "file.bck.bck"); [vm_compute; reflexivity | discriminate | | reflexivity].
    vm_compute. intuition discriminate.
  - apply (Hencode "a.txt" (nl "1" ++ nl "2") scriptWorld); vm_compute; reflexivity.
Defined.

Lemma invalid_format_rejected_witness :
  main (lib := asciiLib) 0 [lit "backlang"; lit "decode"; lit "hello.py"] scriptWorld
  = (Some 2%Z,
     appendLog [EvStderr ("Error: decode command only accepts .bck files" ++ [LF])]
               scriptWorld).
Proof.
  destruct (@invalid_format_rejected asciiLib) as (_ & Hreject & _).
  apply (Hreject 0 "backlang" "hello.py" scriptWorld). vm_compute; reflexivity.
Defined.

(** * More properties of the program *)

(** ** The transcoder *)

Lemma length_concat_rev (rs : list bytes) :
  length (concat (rev rs)) = length (concat rs).
Proof.
  induction rs as [|r rs IH]; [reflexivity|].
  simpl. rewrite concat_app, !length_app, IH. simpl. rewrite app_nil_r. lia.
Qed.

(** X1: [join] returns the bytes of the chunks in their order, and the
    length it reserves, the sum of the chunks' lengths, is the length of
    the result. *)
Theorem join_is_concatenation (chunks : list bytes) :
  join chunks = concat chunks /\
  length (join chunks) = fold_right (fun c total => length c + total) 0 chunks.
Proof.
  split; [apply join_concat|]. rewrite join_concat.
  induction chunks as [|c chunks IH]; [reflexivity|].
  simpl. rewrite length_app, IH. reflexivity.
Qed.

(** X2: the swap loop of [reverse] reverses the slice; reversing twice
    gives the slice back, and the length does not change. *)
Theorem reverse_is_an_involution {T} (s : list T) :
  reverse s = rev s /\
  reverse (reverse s) = s /\
  length (reverse s) = length s.
Proof.
  rewrite !reverse_rev. repeat split.
  - apply rev_involutive.
  - apply length_rev.
Qed.

(** X3: the round trip holds exactly for the buffers that do not both end
    in a newline and have the marker text as their last line. *)
Theorem roundtrip_exactly (B : bytes) :
  decodeBytes (encodeBytes B) = B <->
  (endsWithNewline B = false \/ last (splitLinesPreserveEndings B) <> Some marker).
Proof.
  split; [|apply roundtrip_unless_marker_last].
  intros Hrt. destruct (endsWithNewline B) eqn:Hend; [right | now left].
  intros Hlast. pose proof (roundtrip_lost_when_marker_last B Hend Hlast) as Hlen.
  rewrite Hrt in Hlen. lia.
Qed.

Lemma encoded_ends_with_newline (B : bytes) :
  B <> [] -> endsWithNewline (encodeBytes B) = true.
Proof.
  intros Hne. rewrite endsWithNewline_last, encodeBytes_unfold, last_app.
  rewrite last_concat_records.
  - now apply bool_decide_eq_true_2.
  - intros Hr. apply (split_nonempty B Hne).
    apply (f_equal (@rev bytes)) in Hr. now rewrite rev_involutive in Hr.
  - apply Forall_rev, split_records.
Qed.

(** X4: on a buffer that ends in a newline, encoding is its own inverse. *)
Theorem encode_twice_terminated (B : bytes) :
  endsWithNewline B = true -> encodeBytes (encodeBytes B) = B.
Proof.
  intros Hend.
  assert (Hne : B <> []) by (intros ->; discriminate).
  rewrite (encodeBytes_unfold (encodeBytes B)), encoded_ends_with_newline by exact Hne.
  cbn [negb andb app].
  rewrite (encodeBytes_unfold B), Hend. cbn [negb andb app].
  rewrite split_of_records by (apply Forall_rev, split_records).
  rewrite rev_involutive, split_concat, Hend, orb_true_r. reflexivity.
Qed.

(** X5: encoding adds fourteen bytes, the marker line and the newline of
    the last line, to a non-empty buffer that does not end in a newline,
    and keeps the length of every other buffer. *)
Theorem encode_length (B : bytes) :
  length (encodeBytes B) =
  length B + (if negb (endsWithNewline B) && bool_decide (0 < length B)
              then 14 else 0).
Proof.
  rewrite encodeBytes_unfold, length_app, length_concat_rev, split_concat.
  destruct B as [|c B']; [reflexivity|].
  rewrite (bool_decide_eq_false_2 (c :: B' = [])) by discriminate.
  rewrite (bool_decide_eq_true_2 (0 < length (c :: B'))) by (simpl; lia).
  cbn [orb]. destruct (endsWithNewline (c :: B')); cbn [negb andb].
  - simpl. lia.
  - rewrite length_app. change (length marker) with 13. simpl. lia.
Qed.

(** X6: the lines of an encoded buffer are the marker line, when one is
    written, and then the lines of the buffer in reverse order. *)
Theorem encoded_lines (B : bytes) :
  splitLinesPreserveEndings (encodeBytes B) =
  (if negb (endsWithNewline B) && bool_decide (0 < length B) then [marker] else [])
  ++ rev (splitLinesPreserveEndings B).
Proof.
  rewrite encodeBytes_unfold.
  assert (Hrs : Forall isRecord (rev (splitLinesPreserveEndings B)))
    by apply Forall_rev, split_records.
  destruct (negb (endsWithNewline B) && bool_decide (0 < length B)); cbn [app].
  - change (marker ++ concat (rev (splitLinesPreserveEndings B)))
      with (concat (marker :: rev (splitLinesPreserveEndings B))).
    apply split_of_records. constructor; [apply marker_isRecord | exact Hrs].
  - now apply split_of_records.
Qed.

(** X7: [decodeBytes] in closed form.  Without a marker line in front, the
    lines are reversed and nothing is removed, so a last line without
    newline keeps the newline it was given; with one, the marker line is
    dropped, the other lines are reversed and the last byte is removed. *)
Theorem decode_closed_form (B : bytes) :
  decodeBytes B =
  match splitLinesPreserveEndings B with
  | l0 :: rest =>
      if bool_decide (l0 = marker) then removelast (concat (rev rest))
      else concat (rev (l0 :: rest))
  | [] => []
  end.
Proof.
  unfold decodeBytes. pose proof (split_records B) as Hrs.
  destruct (splitLinesPreserveEndings B) as [|l0 rest]; [reflexivity|].
  case_bool_decide as Hm.
  - rewrite reverse_rev. inversion Hrs as [|? ? _ Hrest]; subst.
    destruct rest as [|r rest'].
    + reflexivity.
    + inversion Hrest as [|? ? (body & -> & _) _]; subst.
      cbn [rev]. rewrite length_app. cbn [length].
      rewrite bool_decide_eq_true_2 by lia. cbn [andb].
      replace (length (rev rest') + 1 - 1) with (length (rev rest') + 0) by lia.
      rewrite lookup_app_r by lia.
      replace (length (rev rest') + 0 - length (rev rest')) with 0 by lia.
      cbn [lookup list_lookup].
      rewrite endsWithNewline_last, last_snoc.
      rewrite (bool_decide_eq_true_2 (Some LF = Some LF)) by reflexivity.
      rewrite insert_app_r. cbn [insert list_insert].
      rewrite length_app. cbn [length].
      replace (length body + 1 - 1) with (length body) by lia.
      rewrite take_app_length, join_concat, !concat_app. cbn [concat].
      rewrite !app_nil_r, app_assoc. now rewrite removelast_last.
  - cbn [andb]. now rewrite reverse_rev, join_concat.
Qed.

Lemma linesFrom_length b : forall cur,
  length (linesFrom cur b) =
  length (filter (fun c => c = LF) b)
  + (if bool_decide (cur ++ b = []) || bool_decide (last b = Some LF) then 0 else 1).
Proof.
  induction b as [|c b IH]; intros cur.
  - simpl. rewrite app_nil_r. destruct cur; reflexivity.
  - cbn [linesFrom].
    rewrite (bool_decide_eq_false_2 (cur ++ c :: b = [])) by (now destruct cur).
    cbn [orb].
    destruct (decide (c = LF)) as [->|Hc].
    + rewrite (bool_decide_eq_true_2 (LF = LF)) by reflexivity.
      rewrite filter_cons_True by reflexivity.
      cbn [length]. rewrite IH. cbn [app].
      destruct b as [|d b]; reflexivity.
    + rewrite (bool_decide_eq_false_2 (c = LF)) by assumption.
      rewrite filter_cons_False by assumption.
      rewrite IH.
      rewrite (bool_decide_eq_false_2 ((cur ++ [c]) ++ b = [])) by (now destruct cur).
      cbn [orb].
      destruct b as [|d b]; [|reflexivity].
      cbn [last].
      rewrite (bool_decide_eq_false_2 (Some c = Some LF)) by congruence.
      now rewrite (bool_decide_eq_false_2 (None = Some LF)).
Qed.

(** X8: a buffer has one record for each of its newlines, and one more when
    it is not empty and does not end in a newline. *)
Theorem record_count (b : bytes) :
  length (splitLinesPreserveEndings b) =
  length (filter (fun c => c = LF) b)
  + (if bool_decide (b = []) || endsWithNewline b then 0 else 1).
Proof.
  rewrite split_linesFrom, linesFrom_length.
  rewrite endsWithNewline_last. reflexivity.
Qed.

(** ** The commands and their errors *)

Section Commands.

Context {lib : GoLib}.

(** X9: with a number of arguments other than two, or with a command
    other than encode, decode and run, [main] exits with status 2 after
    writing the usage text to standard error, and does nothing else. *)
Theorem usage_errors (fuel : nat) (args : list bytes) (w : World) :
  (length args <> 3 \/
   exists prog cmd inPath,
     args = [prog; cmd; inPath] /\
     cmd <> lit "encode" /\ cmd <> lit "decode" /\ cmd <> lit "run") ->
  main fuel args w = (Some 2%Z, appendLog [EvStderr usageText] w).
Proof.
  intros [Hlen|(prog & cmd & inPath & -> & He & Hd & Hr)].
  - destruct args as [|a0 [|a1 [|a2 [|a3 args]]]]; try reflexivity.
    simpl in Hlen. congruence.
  - unfold main. now rewrite !bool_decide_eq_false_2 by assumption.
Qed.

Lemma read_failure_encode inPath e w :
  fst (os.ReadFile inPath w) = Err e ->
  encode inPath w = (Err (wrapPathErr e inPath), appendLog [EvReadFile inPath] w).
Proof.
  intros He. unfold encode, bind at 1, orReturn at 1.
  pose proof (ReadFile_world inPath w) as Hw.
  destruct (os.ReadFile inPath w) as [r w1]. simpl in He, Hw. now subst.
Qed.

Lemma read_failure_decode fuel inPath e w :
  fst (os.ReadFile inPath w) = Err e ->
  decode fuel inPath w
  = (Err (wrapPathErr e inPath), appendLog [EvReadFile inPath] w).
Proof.
  intros He. unfold decode, bind at 1, orReturn at 1.
  pose proof (ReadFile_world inPath w) as Hw.
  destruct (os.ReadFile inPath w) as [r w1]. simpl in He, Hw. now subst.
Qed.

Lemma read_failure_run fuel inPath e w :
  strings.HasSuffix (strings.ToLower inPath) ".bck" = true ->
  fst (os.ReadFile inPath w) = Err e ->
  run fuel inPath w
  = (Err (wrapPathErr e inPath), appendLog [EvReadFile inPath] w).
Proof.
  intros Hsuf He. unfold run. rewrite Hsuf. cbn [negb].
  unfold bind at 1, orReturn at 1.
  pose proof (ReadFile_world inPath w) as Hw.
  destruct (os.ReadFile inPath w) as [r w1]. simpl in He, Hw. now subst.
Qed.

Lemma ReadFile_failure inPath w :
  fst (os.ReadFile inPath w) =
  match faults w !! inPath, files w !! inPath with
  | Some e, _ => Err (PathError "open" inPath e)
  | None, Some data => Ok data
  | None, None => Err (PathError "open" inPath ErrNotExist)
  end.
Proof.
  unfold os.ReadFile, bind, effect. cbn [emit faults files].
  destruct (faults w !! inPath), (files w !! inPath); reflexivity.
Qed.

Lemma main_read_failure fuel prog cmd inPath e w :
  readsInput cmd inPath ->
  fst (os.ReadFile inPath w) = Err e ->
  main fuel [prog; cmd; inPath] w
  = (Some 1%Z,
     appendLog [EvReadFile inPath;
                EvStderr (errorText (wrapPathErr e inPath) ++ [LF])] w).
Proof.
  intros [->|[[->| ->] Hsuf]] He; unfold main.
  - cbn [bool_decide]. change (bool_decide (lit "encode" = lit "encode")) with true.
    cbn iota. unfold orExit1. rewrite (read_failure_encode _ _ _ He).
    unfold exitWith, printErr, effect; cbn [snd]; rewrite emit_appendLog, appendLog_appendLog; reflexivity.
  - change (bool_decide (lit "decode" = lit "encode")) with false.
    change (bool_decide (lit "decode" = lit "decode")) with true.
    rewrite Hsuf. cbn [negb]. cbn iota.
    unfold orExit1. rewrite (read_failure_decode _ _ _ _ He).
    unfold exitWith, printErr, effect; cbn [snd]; rewrite emit_appendLog, appendLog_appendLog; reflexivity.
  - change (bool_decide (lit "run" = lit "encode")) with false.
    change (bool_decide (lit "run" = lit "decode")) with false.
    change (bool_decide (lit "run" = lit "run")) with true.
    cbn iota. unfold orExit1. rewrite (read_failure_run _ _ _ _ Hsuf He).
    unfold exitWith, printErr, effect; cbn [snd]; rewrite emit_appendLog, appendLog_appendLog; reflexivity.
Qed.

(** X10: when the input file of a command does not exist, [main] exits
    with status 1; the only things it did are the attempt to read the file
    and one line on standard error, which names the file without its
    directory. *)
Theorem missing_input_reported fuel prog cmd inPath w :
  readsInput cmd inPath ->
  faults w !! inPath = None -> files w !! inPath = None ->
  main fuel [prog; cmd; inPath] w
  = (Some 1%Z,
     appendLog [EvReadFile inPath;
                EvStderr ("Error: File '" ++ filepath.Base inPath ++ "' not found"
                          ++ [LF])] w).
Proof.
  intros Hcmd Hfault Hfile.
  rewrite (main_read_failure fuel prog cmd inPath
             (PathError "open" inPath ErrNotExist) w Hcmd).
  - unfold wrapPathErr, errorText. now rewrite <- !app_assoc.
  - now rewrite ReadFile_failure, Hfault, Hfile.
Qed.


(** X12: on a readable input whose output path can be written, the encode
    command exits with status 0; it writes the encoded buffer to the input
    path followed by ".bck", replacing whatever was there without asking,
    leaves the input file as it was, and reports the two names. *)
Theorem encode_command fuel prog inPath data w :
  faults w !! inPath = None -> files w !! inPath = Some data ->
  faults w !! (inPath ++ ".bck") = None ->
  let r := main fuel [prog; lit "encode"; inPath] w in
  fst r = Some 0%Z /\
  files (snd r) = <[inPath ++ ".bck" := encodeBytes data]> (files w) /\
  files (snd r) !! inPath = Some data /\
  log (snd r)
  = log w ++ [EvReadFile inPath;
              EvWriteFile (inPath ++ ".bck") (encodeBytes data);
              EvStdout ("Encoded '" ++ filepath.Base inPath ++ "' " ++ arrow ++ " '"
                        ++ filepath.Base (inPath ++ ".bck") ++ "'" ++ [LF])].
Proof.
  intros Hfault Hdata Hwr r.
  assert (Hr : r = (Some 0%Z,
                    appendLog [EvStdout ("Encoded '" ++ filepath.Base inPath ++ "' " ++ arrow
                                         ++ " '" ++ filepath.Base (inPath ++ ".bck") ++ "'"
                                         ++ [LF])]
                      (store (inPath ++ ".bck") (encodeBytes data)
                         (appendLog [EvWriteFile (inPath ++ ".bck") (encodeBytes data)]
                            (appendLog [EvReadFile inPath] w))))).
  { unfold r, main. change (bool_decide (lit "encode" = lit "encode")) with true.
    cbn iota. unfold orExit1, encode.
    unfold bind at 1. unfold orReturn at 1.
    rewrite (ReadFile_ok _ _ _ Hfault Hdata).
    unfold bind at 1. unfold orReturn at 1.
    rewrite WriteFile_ok by exact Hwr. reflexivity. }
  rewrite Hr. cbn [fst snd appendLog store files log].
  repeat split.
  - rewrite lookup_insert_ne; [exact Hdata|].
    intros Heq. apply (f_equal length) in Heq. rewrite length_app in Heq.
    simpl in Heq. lia.
  - now rewrite <- !app_assoc.
Qed.

End Commands.

(** ** Names that are free *)

(** What the loop returns, when it returns: a candidate that does not
    exist, after candidates that all exist. *)
Lemma nextAvailableLoop_sound dir name ext fuel : forall i w c w',
  (1 <= i)%Z -> (i + Z.of_nat fuel <= 2 ^ 63)%Z ->
  nextAvailableLoop fuel dir name ext i w = (Ok c, w') ->
  exists (n : nat) evs,
    n < fuel /\
    c = candidateName dir name ext (i + Z.of_nat n) /\
    existsIn w c = false /\
    (forall k, (i <= k < i + Z.of_nat n)%Z ->
               existsIn w (candidateName dir name ext k) = true) /\
    w' = appendLog evs w.
Proof.
  induction fuel as [|fuel IH]; intros i w c w' Hi Hmax Hrun;
    cbn [nextAvailableLoop] in Hrun; [discriminate|].
  unfold bind in Hrun. rewrite fileExists_run in Hrun.
  destruct (existsIn w (candidateName dir name ext i)) eqn:Hex; cbn [negb] in Hrun.
  - destruct fuel as [|fuel']; [discriminate|].
    rewrite wrap64_small in Hrun by lia.
    apply IH in Hrun as (n & evs & Hn & -> & Hfree & Hused & ->); try lia.
    exists (S n), ([EvStat (candidateName dir name ext i)] ++ evs).
    replace (i + Z.of_nat (S n))%Z with (i + 1 + Z.of_nat n)%Z by lia.
    repeat split; [lia | exact Hfree | | now rewrite appendLog_appendLog].
    intros k Hk. destruct (decide (k = i)) as [->|Hne]; [exact Hex|].
    apply (Hused k). lia.
  - injection Hrun as <- <-. exists 0, [EvStat (candidateName dir name ext i)].
    replace (i + Z.of_nat 0)%Z with i by lia.
    repeat split; [lia | exact Hex | intros k Hk; lia].
Qed.

Lemma nextAvailableLoop_world dir name ext fuel : forall i w,
  exists evs, snd (nextAvailableLoop fuel dir name ext i w) = appendLog evs w.
Proof.
  induction fuel as [|fuel IH]; intros i w; cbn [nextAvailableLoop].
  - exists []. unfold hang, appendLog. destruct w; simpl. now rewrite app_nil_r.
  - unfold bind. rewrite fileExists_run.
    destruct (negb _).
    + eexists. reflexivity.
    + destruct (IH (wrap64 (i + 1))
                  (appendLog [EvStat (candidateName dir name ext i)] w)) as [evs ->].
      eexists. apply appendLog_appendLog.
Qed.

Lemma nextAvailableLoop_hangs dir name ext fuel : forall i w,
  (1 <= i)%Z -> (i + Z.of_nat fuel <= 2 ^ 63)%Z ->
  (forall k, (i <= k < i + Z.of_nat fuel)%Z ->
             existsIn w (candidateName dir name ext k) = true) ->
  fst (nextAvailableLoop fuel dir name ext i w) = Hang.
Proof.
  induction fuel as [|fuel IH]; intros i w Hi Hmax Hused; cbn [nextAvailableLoop];
    [reflexivity|].
  unfold bind. rewrite fileExists_run, (Hused i) by lia. cbn [negb].
  destruct fuel as [|fuel']; [reflexivity|].
  rewrite wrap64_small by lia. apply IH; try lia.
  intros k Hk. apply (Hused k). lia.
Qed.

(** X13: whatever [nextAvailableName] returns is the alternate name with
    the least number from 1 on that does not exist, and the call changed
    nothing but the log. *)
Theorem returned_name_is_least_free (fuel : nat) (path c : bytes) (w w' : World) :
  (Z.of_nat fuel < 2 ^ 63)%Z ->
  nextAvailableName fuel path w = (Ok c, w') ->
  exists N evs,
    (1 <= N <= Z.of_nat fuel)%Z /\
    c = alternateName path N /\
    existsIn w c = false /\
    (forall k, (1 <= k < N)%Z -> existsIn w (alternateName path k) = true) /\
    w' = appendLog evs w.
Proof.
  intros Hfuel Hrun. unfold nextAvailableName in Hrun.
  apply nextAvailableLoop_sound in Hrun as (n & evs & Hn & -> & Hfree & Hused & ->);
    try lia.
  exists (1 + Z.of_nat n)%Z, evs. unfold alternateName.
  repeat split; try lia; assumption.
Qed.

(** X14: while every alternate name numbered from 1 to the fuel exists,
    [nextAvailableName] has not returned: the loop has no bound of its own. *)
Theorem no_free_name_no_return (fuel : nat) (path : bytes) (w : World) :
  (Z.of_nat fuel < 2 ^ 63)%Z ->
  (forall k, (1 <= k <= Z.of_nat fuel)%Z ->
             existsIn w (alternateName path k) = true) ->
  fst (nextAvailableName fuel path w) = Hang.
Proof.
  intros Hfuel Hused. unfold nextAvailableName.
  apply nextAvailableLoop_hangs; try lia.
  intros k Hk. apply (Hused k). lia.
Qed.

(** ** Files that are already there *)

Lemma nextAvailableLoop_fresh dir name ext fuel : forall i w c w',
  nextAvailableLoop fuel dir name ext i w = (Ok c, w') ->
  existsIn w c = false.
Proof.
  induction fuel as [|fuel IH]; intros i w c w' Hrun;
    cbn [nextAvailableLoop] in Hrun; [discriminate|].
  unfold bind in Hrun. rewrite fileExists_run in Hrun.
  destruct (existsIn w (candidateName dir name ext i)) eqn:Hex; cbn [negb] in Hrun.
  - apply IH in Hrun. exact Hrun.
  - now injection Hrun as <- <-.
Qed.

Lemma WriteFile_run c d w :
  os.WriteFile c d w =
  match faults w !! c with
  | Some e => (Err (PathError "open" c e), appendLog [EvWriteFile c d] w)
  | None => (Ok tt, store c d (appendLog [EvWriteFile c d] w))
  end.
Proof.
  unfold os.WriteFile, bind, effect. cbn [emit faults].
  now destruct (faults w !! c).
Qed.

(** Writing one file and going on without writing leaves the others. *)
Lemma others_after_write c d f (k : M unit) w p :
  keepsFiles k -> p <> c ->
  files (snd ((orReturn (os.WriteFile c d) f >> k) w)) !! p = files w !! p.
Proof.
  intros Hk Hne. unfold bind, orReturn. rewrite WriteFile_run.
  destruct (faults w !! c); [reflexivity|].
  rewrite Hk. cbn [store files appendLog]. now apply lookup_insert_ne.
Qed.

Lemma existing_is_not_fresh w p c :
  existsIn w p = true -> existsIn w c = false -> p <> c.
Proof. intros Hp Hc ->. congruence. Qed.

Lemma promptOverwrite_run {lib : GoLib} target w :
  promptOverwrite target w =
  let w' := appendLog [EvStdout ("File '" ++ filepath.Base target
                                 ++ "' exists. Overwrite? (y/n): "); EvStdin] w in
  match stdinFault w with
  | Some msg => (Err (ReadError msg), w')
  | None =>
      let line := strings.TrimSpace (strings.ToLower (readLine (stdin w))) in
      (Ok (bool_decide (line = lit "y") || bool_decide (line = lit "yes")), w')
  end.
Proof.
  unfold promptOverwrite, bind, effect. cbn [emit stdinFault stdin].
  rewrite !emit_appendLog, appendLog_appendLog.
  now destruct (stdinFault w).
Qed.

Section Existing.

Context {lib : GoLib}.

Lemma keepsFiles_after_run_write inPath outPath :
  keepsFiles
    (effect (EvStdout ("Decoded '" ++ filepath.Base inPath ++ "' " ++ arrow
                       ++ " '" ++ filepath.Base outPath ++ "'" ++ [LF])) >>
     let* lang := detectLanguage outPath in
     effect (EvStdout ("Detected " ++ Name lang ++ ", running with "
                       ++ Command lang ++ "..." ++ [LF])) >>
     executeFile lang outPath).
Proof. intros w. apply keepsFiles_run_tail. Qed.

(** X15: [run] never changes a file that exists: it writes to a path that
    did not exist, or not at all. *)
Theorem run_spares_existing_files (fuel : nat) (inPath p : bytes) (w : World) :
  existsIn w p = true ->
  files (snd (run fuel inPath w)) !! p = files w !! p.
Proof.
  intros Hp. unfold run.
  destruct (strings.HasSuffix (strings.ToLower inPath) ".bck"); [|reflexivity].
  cbn [negb]. unfold bind at 1. unfold orReturn at 1.
  pose proof (ReadFile_world inPath w) as Hw.
  destruct (os.ReadFile inPath w) as [[data| |] w1]; simpl in Hw; subst w1;
    [|reflexivity..].
  unfold bind at 1. rewrite fileExists_run, appendLog_appendLog.
  change (existsIn (appendLog [EvReadFile inPath] w) (stripLastBck inPath))
    with (existsIn w (stripLastBck inPath)).
  unfold bind at 1.
  destruct (existsIn w (stripLastBck inPath)) eqn:Hout.
  - unfold nextAvailableName.
    match goal with
    | |- context [nextAvailableLoop ?f ?d ?n ?e ?i ?w0] =>
        pose proof (nextAvailableLoop_world d n e f i w0) as [evs Hw3];
        pose proof (nextAvailableLoop_fresh d n e f i w0) as Hfresh;
        destruct (nextAvailableLoop f d n e i w0) as [[c| |] w3]
    end; simpl in Hw3; subst w3; [|reflexivity..].
    specialize (Hfresh c _ eq_refl).
    rewrite others_after_write.
    + reflexivity.
    + apply keepsFiles_after_run_write.
    + apply (existing_is_not_fresh w); assumption.
  - unfold ret at 1. rewrite others_after_write.
    + reflexivity.
    + apply keepsFiles_after_run_write.
    + apply (existing_is_not_fresh w); assumption.
Qed.

(** X16: [decode] changes a file that exists only when it is the computed
    output path and the user answered yes. *)
Theorem decode_overwrites_only_on_yes (fuel : nat) (inPath p : bytes) (w : World) :
  existsIn w p = true ->
  ~ (p = stripLastBck inPath /\ accepts w) ->
  files (snd (decode fuel inPath w)) !! p = files w !! p.
Proof.
  intros Hp Hno. unfold decode.
  unfold bind at 1. unfold orReturn at 1.
  pose proof (ReadFile_world inPath w) as Hw.
  destruct (os.ReadFile inPath w) as [[data| |] w1]; simpl in Hw; subst w1;
    [|reflexivity..].
  unfold bind at 1. rewrite fileExists_run, appendLog_appendLog.
  change (existsIn (appendLog [EvReadFile inPath] w) (stripLastBck inPath))
    with (existsIn w (stripLastBck inPath)).
  unfold bind at 1.
  destruct (existsIn w (stripLastBck inPath)) eqn:Hout.
  - unfold bind at 1. rewrite promptOverwrite_run. cbn zeta.
    cbn [stdinFault stdin appendLog].
    destruct (stdinFault w) eqn:Hfault; [reflexivity|].
    destruct (bool_decide _ || bool_decide _) eqn:Hyes; cbn [negb].
    + unfold ret at 1. rewrite others_after_write.
      * reflexivity.
      * apply keepsFiles_effect.
      * intros ->. apply Hno. split; [reflexivity|]. split; [exact Hfault|].
        apply orb_true_iff in Hyes as [Hy|Hy]; apply bool_decide_eq_true in Hy; auto.
    + unfold nextAvailableName.
      match goal with
      | |- context [nextAvailableLoop ?f ?d ?n ?e ?i ?w0] =>
          pose proof (nextAvailableLoop_world d n e f i w0) as [evs Hw3];
          pose proof (nextAvailableLoop_fresh d n e f i w0) as Hfresh;
          destruct (nextAvailableLoop f d n e i w0) as [[c| |] w3]
      end; simpl in Hw3; subst w3; [|reflexivity..].
      specialize (Hfresh c _ eq_refl).
      rewrite others_after_write.
      * reflexivity.
      * apply keepsFiles_effect.
      * apply (existing_is_not_fresh w); assumption.
  - unfold ret at 1. rewrite others_after_write.
    + reflexivity.
    + apply keepsFiles_effect.
    + apply (existing_is_not_fresh w); assumption.
Qed.

(** X17: when the output path exists and the user answers yes, [decode]
    writes the decoded buffer over it and looks for no other name. *)
Theorem decode_overwrites_on_yes (fuel : nat) (inPath data : bytes) (w : World) :
  faults w !! inPath = None -> files w !! inPath = Some data ->
  existsIn w (stripLastBck inPath) = true ->
  accepts w ->
  faults w !! stripLastBck inPath = None ->
  let out := stripLastBck inPath in
  decode fuel inPath w
  = (Ok tt,
     appendLog [EvStdout ("Decoded '" ++ filepath.Base inPath ++ "' " ++ arrow ++ " '"
                          ++ filepath.Base out ++ "'" ++ [LF])]
       (store out (decodeBytes data)
          (appendLog [EvReadFile inPath; EvStat out;
                      EvStdout ("File '" ++ filepath.Base out
                                ++ "' exists. Overwrite? (y/n): ");
                      EvStdin; EvWriteFile out (decodeBytes data)] w))).
Proof.
  intros Hfault Hdata Hout (Hstdin & Hyes) Hwr out. unfold decode.
  unfold bind at 1. unfold orReturn at 1.
  rewrite (ReadFile_ok _ _ _ Hfault Hdata).
  unfold bind at 1. rewrite fileExists_run, appendLog_appendLog.
  change (existsIn (appendLog [EvReadFile inPath] w) (stripLastBck inPath))
    with (existsIn w (stripLastBck inPath)).
  rewrite Hout. unfold bind at 1. unfold bind at 1.
  rewrite promptOverwrite_run. cbn zeta. cbn [stdinFault stdin appendLog].
  rewrite Hstdin.
  assert (Hb : bool_decide (strings.TrimSpace (strings.ToLower (readLine (stdin w))) = lit "y")
               || bool_decide (strings.TrimSpace (strings.ToLower (readLine (stdin w))) = lit "yes")
               = true).
  { apply orb_true_iff. destruct Hyes as [Hy|Hy]; [left | right];
      now apply bool_decide_eq_true. }
  rewrite Hb. cbn [negb]. unfold ret at 1.
  unfold bind at 1. unfold orReturn at 1.
  rewrite WriteFile_run. cbn [faults appendLog]. rewrite Hwr.
  unfold effect. rewrite emit_appendLog.
  unfold out, appendLog, store; cbn. now rewrite <- !app_assoc.
Qed.

(** X18: when the output path exists and standard input cannot be read,
    [decode] returns that error after the prompt and writes nothing. *)
Theorem decode_stops_on_stdin_error (fuel : nat) (inPath data msg : bytes) (w : World) :
  faults w !! inPath = None -> files w !! inPath = Some data ->
  existsIn w (stripLastBck inPath) = true ->
  stdinFault w = Some msg ->
  let out := stripLastBck inPath in
  decode fuel inPath w
  = (Err (ReadError msg),
     appendLog [EvReadFile inPath; EvStat out;
                EvStdout ("File '" ++ filepath.Base out
                          ++ "' exists. Overwrite? (y/n): ");
                EvStdin] w).
Proof.
  intros Hfault Hdata Hout Hstdin out. unfold decode.
  unfold bind at 1. unfold orReturn at 1.
  rewrite (ReadFile_ok _ _ _ Hfault Hdata).
  unfold bind at 1. rewrite fileExists_run, appendLog_appendLog.
  change (existsIn (appendLog [EvReadFile inPath] w) (stripLastBck inPath))
    with (existsIn w (stripLastBck inPath)).
  rewrite Hout. unfold bind at 1. unfold bind at 1.
  rewrite promptOverwrite_run. cbn zeta. cbn [stdinFault stdin appendLog].
  rewrite Hstdin. unfold out, appendLog; cbn. now rewrite <- !app_assoc.
Qed.

End Existing.

(** ** Decoding and running *)

Lemma Open_run name w :
  os.Open name w =
  (match faults w !! name, files w !! name with
   | Some e, _ => Err (PathError "open" name e)
   | None, Some data => Ok data
   | None, None => Err (PathError "open" name ErrNotExist)
   end, appendLog [EvOpen name] w).
Proof.
  unfold os.Open, bind, effect. cbn [emit faults files].
  destruct (faults w !! name), (files w !! name); reflexivity.
Qed.

Lemma appendLog_store evs p d w :
  appendLog evs (store p d w) = store p d (appendLog evs w).
Proof. reflexivity. Qed.

Section Running.

Context {lib : GoLib}.

(** [run] up to the point where the decoded file is written to a free
    output path. *)
Lemma run_until_written fuel inPath data w :
  strings.HasSuffix (strings.ToLower inPath) ".bck" = true ->
  faults w !! inPath = None -> files w !! inPath = Some data ->
  existsIn w (stripLastBck inPath) = false ->
  faults w !! stripLastBck inPath = None ->
  let out := stripLastBck inPath in
  let written :=
    appendLog [EvStdout ("Decoded '" ++ filepath.Base inPath ++ "' " ++ arrow ++ " '"
                         ++ filepath.Base out ++ "'" ++ [LF])]
      (store out (decodeBytes data)
         (appendLog [EvReadFile inPath; EvStat out; EvWriteFile out (decodeBytes data)] w)) in
  run fuel inPath w =
  (let* lang := detectLanguage out in
   effect (EvStdout ("Detected " ++ Name lang ++ ", running with "
                     ++ Command lang ++ "..." ++ [LF])) >>
   executeFile lang out) written.
Proof.
  intros Hsuf Hfault Hdata Hfree Hwr out written.
  unfold run. rewrite Hsuf. cbn [negb].
  unfold bind at 1. unfold orReturn at 1.
  rewrite (ReadFile_ok _ _ _ Hfault Hdata).
  unfold bind at 1. rewrite fileExists_run, appendLog_appendLog.
  change (existsIn (appendLog [EvReadFile inPath] w) (stripLastBck inPath))
    with (existsIn w (stripLastBck inPath)).
  rewrite Hfree. unfold bind at 1. unfold ret at 1.
  unfold bind at 1. unfold orReturn at 1.
  rewrite WriteFile_run. cbn [faults appendLog]. rewrite Hwr.
  unfold bind at 1. unfold effect at 1. rewrite emit_appendLog.
  f_equal. unfold written, out, appendLog, store; cbn. now rewrite <- !app_assoc.
Qed.

Lemma detectLanguage_written out content w0 :
  faults w0 !! out = None ->
  detectLanguage out (store out content w0)
  = (match detectIn getSupportedLanguages (firstLineOf content) out with
     | inr lang => Ok lang
     | inl err => Err err
     end, appendLog [EvOpen out] (store out content w0)).
Proof.
  intros Hf. unfold detectLanguage, bind, orReturn. rewrite Open_run.
  cbn [store faults files]. rewrite Hf, lookup_insert_eq.
  now destruct (detectIn getSupportedLanguages (firstLineOf content) out).
Qed.

Lemma run_detected fuel inPath data lang w :
  strings.HasSuffix (strings.ToLower inPath) ".bck" = true ->
  faults w !! inPath = None -> files w !! inPath = Some data ->
  existsIn w (stripLastBck inPath) = false ->
  faults w !! stripLastBck inPath = None ->
  detectIn getSupportedLanguages (firstLineOf (decodeBytes data)) (stripLastBck inPath)
  = inr lang ->
  let out := stripLastBck inPath in
  run fuel inPath w =
  (match childFailure w with
   | Some msg => Err (Errorf ("Error: Failed to execute with " ++ Command lang
                              ++ ": " ++ msg))
   | None => Ok tt
   end,
   store out (decodeBytes data)
     (appendLog [EvReadFile inPath; EvStat out; EvWriteFile out (decodeBytes data);
                 EvStdout ("Decoded '" ++ filepath.Base inPath ++ "' " ++ arrow ++ " '"
                           ++ filepath.Base out ++ "'" ++ [LF]);
                 EvOpen out;
                 EvStdout ("Detected " ++ Name lang ++ ", running with "
                           ++ Command lang ++ "..." ++ [LF]);
                 EvExec (Command lang) (Args lang ++ [out])] w)).
Proof.
  intros Hsuf Hfault Hdata Hfree Hwr Hdetect out.
  rewrite (run_until_written fuel inPath data w Hsuf Hfault Hdata Hfree Hwr).
  cbv zeta. unfold bind at 1.
  match goal with
  | |- context [detectLanguage ?o (appendLog ?evs (store ?o ?c ?w0))] =>
      change (appendLog evs (store o c w0)) with (store o c (appendLog evs w0))
  end.
  rewrite detectLanguage_written by exact Hwr.
  rewrite Hdetect. unfold bind at 1. unfold effect at 1.
  unfold executeFile, bind, effect.
  rewrite !emit_appendLog, !appendLog_store, !appendLog_appendLog.
  cbn [store childFailure appendLog].
  destruct (childFailure w); reflexivity.
Qed.

Lemma run_undetected fuel inPath data err w :
  strings.HasSuffix (strings.ToLower inPath) ".bck" = true ->
  faults w !! inPath = None -> files w !! inPath = Some data ->
  existsIn w (stripLastBck inPath) = false ->
  faults w !! stripLastBck inPath = None ->
  detectIn getSupportedLanguages (firstLineOf (decodeBytes data)) (stripLastBck inPath)
  = inl err ->
  let out := stripLastBck inPath in
  run fuel inPath w =
  (Err err,
   store out (decodeBytes data)
     (appendLog [EvReadFile inPath; EvStat out; EvWriteFile out (decodeBytes data);
                 EvStdout ("Decoded '" ++ filepath.Base inPath ++ "' " ++ arrow ++ " '"
                           ++ filepath.Base out ++ "'" ++ [LF]);
                 EvOpen out] w)).
Proof.
  intros Hsuf Hfault Hdata Hfree Hwr Hdetect out.
  rewrite (run_until_written fuel inPath data w Hsuf Hfault Hdata Hfree Hwr).
  cbv zeta. unfold bind at 1.
  match goal with
  | |- context [detectLanguage ?o (appendLog ?evs (store ?o ?c ?w0))] =>
      change (appendLog evs (store o c w0)) with (store o c (appendLog evs w0))
  end.
  rewrite detectLanguage_written by exact Hwr.
  rewrite Hdetect.
  rewrite !appendLog_store, !appendLog_appendLog. reflexivity.
Qed.

(** X19: [run] on a readable input with a free, writable output path whose
    decoded contents are detected as [lang]: the decoded buffer is written,
    the file just written is the one inspected and the one handed to the
    interpreter as the last argument, and the result of [run] is the result
    of the child process. *)
Theorem run_decodes_detects_executes fuel inPath data lang w :
  strings.HasSuffix (strings.ToLower inPath) ".bck" = true ->
  faults w !! inPath = None -> files w !! inPath = Some data ->
  existsIn w (stripLastBck inPath) = false ->
  faults w !! stripLastBck inPath = None ->
  detectIn getSupportedLanguages (firstLineOf (decodeBytes data)) (stripLastBck inPath)
  = inr lang ->
  let out := stripLastBck inPath in
  let r := run fuel inPath w in
  fst r = match childFailure w with
          | Some msg => Err (Errorf ("Error: Failed to execute with " ++ Command lang
                                     ++ ": " ++ msg))
          | None => Ok tt
          end /\
  files (snd r) = <[out := decodeBytes data]> (files w) /\
  log (snd r)
  = log w ++ [EvReadFile inPath; EvStat out; EvWriteFile out (decodeBytes data);
              EvStdout ("Decoded '" ++ filepath.Base inPath ++ "' " ++ arrow ++ " '"
                        ++ filepath.Base out ++ "'" ++ [LF]);
              EvOpen out;
              EvStdout ("Detected " ++ Name lang ++ ", running with "
                        ++ Command lang ++ "..." ++ [LF]);
              EvExec (Command lang) (Args lang ++ [out])].
Proof.
  intros Hsuf Hfault Hdata Hfree Hwr Hdetect out r.
  unfold r.
  rewrite (run_detected fuel inPath data lang w Hsuf Hfault Hdata Hfree Hwr Hdetect).
  cbn [fst snd appendLog store files log]. repeat split.
Qed.

(** X20: under the same conditions, when no interpreter is found for the
    decoded file, [run] returns that error, which names the file; the
    decoded file stays written and no process is started. *)
Theorem run_without_interpreter fuel inPath data err w :
  strings.HasSuffix (strings.ToLower inPath) ".bck" = true ->
  faults w !! inPath = None -> files w !! inPath = Some data ->
  existsIn w (stripLastBck inPath) = false ->
  faults w !! stripLastBck inPath = None ->
  detectIn getSupportedLanguages (firstLineOf (decodeBytes data)) (stripLastBck inPath)
  = inl err ->
  let out := stripLastBck inPath in
  let r := run fuel inPath w in
  err = Errorf ("Error: No interpreter found for '" ++ filepath.Base out ++ "'") /\
  fst r = Err err /\
  files (snd r) = <[out := decodeBytes data]> (files w) /\
  log (snd r)
  = log w ++ [EvReadFile inPath; EvStat out; EvWriteFile out (decodeBytes data);
              EvStdout ("Decoded '" ++ filepath.Base inPath ++ "' " ++ arrow ++ " '"
                        ++ filepath.Base out ++ "'" ++ [LF]);
              EvOpen out].
Proof.
  intros Hsuf Hfault Hdata Hfree Hwr Hdetect out r.
  split.
  { unfold detectIn in Hdetect.
    destruct (if strings.HasPrefix _ _ then _ else _); [discriminate|].
    destruct (extScan _ _); [discriminate|]. now injection Hdetect as <-. }
  unfold r.
  rewrite (run_undetected fuel inPath data err w Hsuf Hfault Hdata Hfree Hwr Hdetect).
  cbn [fst snd appendLog store files log]. repeat split.
Qed.

End Running.

(** ** Names and contents, there and back *)

Lemma HasPrefix_prefix_of (s p : bytes) :
  strings.HasPrefix s p = true <-> p `prefix_of` s.
Proof.
  unfold strings.HasPrefix. rewrite andb_true_iff, !bool_decide_eq_true. split.
  - intros [_ Htake]. exists (drop (length p) s).
    rewrite <- Htake at 1. now rewrite take_drop.
  - intros [k ->]. rewrite length_app. split; [lia|]. apply take_app_length.
Qed.

Lemma HasPrefix_shorter (s p q : bytes) :
  q `prefix_of` p -> strings.HasPrefix s p = true -> strings.HasPrefix s q = true.
Proof.
  rewrite !HasPrefix_prefix_of. intros Hqp Hps. now transitivity p.
Qed.

Lemma isASCII_app (s t : bytes) :
  strings.isASCII (s ++ t) = strings.isASCII s && strings.isASCII t.
Proof. apply forallb_app. Qed.

Section ThereAndBack.

Context {lib : GoLib}.

Lemma bck_name_passes (name : bytes) :
  strings.isASCII name = true ->
  strings.HasSuffix (strings.ToLower (name ++ ".bck")) ".bck" = true.
Proof.
  intros Hascii. rewrite ToLower_ascii by (now rewrite isASCII_app, Hascii).
  apply HasSuffix_map_lower. now exists name, (lit ".bck").
Qed.

Lemma stripLastBck_of_encoded_name (name : bytes) :
  name <> [] -> ~ In Separator name -> strings.isASCII name = true ->
  stripLastBck (name ++ ".bck") = name.
Proof.
  intros Hne Hno Hascii. rewrite stripLastBck_bare.
  - rewrite bck_name_passes by exact Hascii.
    rewrite length_app. change (length (lit ".bck")) with 4.
    replace (length name + 4 - 4) with (length name) by lia.
    apply take_app_length.
  - now destruct name.
  - rewrite in_app_iff. intros [Hin|Hin]; [now apply Hno|].
    vm_compute in Hin. intuition discriminate.
  - now rewrite isASCII_app, Hascii.
Qed.

(** X21: for a bare ASCII file name, the output name of [decode] and [run]
    on the output name of [encode] is the name itself, and the output name
    of [encode] passes the check of the suffix. *)
Theorem names_there_and_back (name : bytes) :
  name <> [] -> ~ In Separator name -> strings.isASCII name = true ->
  strings.HasSuffix (strings.ToLower (name ++ ".bck")) ".bck" = true /\
  stripLastBck (name ++ ".bck") = name.
Proof.
  intros Hne Hno Hascii. split.
  - now apply bck_name_passes.
  - now apply stripLastBck_of_encoded_name.
Qed.

(** X22: decoding a file that holds the encoding of a buffer, under the
    name [encode] gives it, creates the original file again: for a bare
    ASCII name that is free, and a buffer that is not one of those whose
    last line is the marker text, [decode] writes exactly the buffer to
    exactly the name. *)
Theorem decode_recreates_the_source (fuel : nat) (name data : bytes) (w : World) :
  name <> [] -> ~ In Separator name -> strings.isASCII name = true ->
  (endsWithNewline data = false \/
   last (splitLinesPreserveEndings data) <> Some marker) ->
  faults w !! (name ++ ".bck") = None ->
  files w !! (name ++ ".bck") = Some (encodeBytes data) ->
  existsIn w name = false -> faults w !! name = None ->
  fst (decode fuel (name ++ ".bck") w) = Ok tt /\
  files (snd (decode fuel (name ++ ".bck") w)) = <[name := data]> (files w).
Proof.
  intros Hne Hno Hascii Hrt Hfault Hdata Hfree Hwr.
  pose proof (stripLastBck_of_encoded_name name Hne Hno Hascii) as Hname.
  destruct (decode_writes fuel (name ++ ".bck") (encodeBytes data) w) as [Hok Hfiles];
    try (rewrite ?Hname; assumption).
  split; [exact Hok|].
  now rewrite Hfiles, Hname, roundtrip_unless_marker_last.
Qed.

(** X23: detection with the registry of the program, for every first line
    and file name: Python exactly when the line starts with
    "#!/usr/bin/env python" or "#!/usr/bin/python", whatever follows, or
    the lower-cased extension is ".py"; otherwise the error that names the
    file.  The two shebangs that end in "python3" add nothing. *)
Theorem detection_in_full (firstLine filePath : bytes) :
  detectIn getSupportedLanguages firstLine filePath =
  if strings.HasPrefix firstLine "#!/usr/bin/env python"
     || strings.HasPrefix firstLine "#!/usr/bin/python"
     || bool_decide (strings.ToLower (filepath.Ext filePath) = lit ".py")
  then inr Python
  else inl (Errorf ("Error: No interpreter found for '"
                    ++ filepath.Base filePath ++ "'")).
Proof.
  unfold detectIn, getSupportedLanguages. cbn [shebangScan Shebangs Python shebangLoop].
  cbn [extScan Extensions Python extLoop].
  pose proof (HasPrefix_shorter firstLine "#!/usr/bin/env python3" "#!/usr/bin/env python") as H13.
  pose proof (HasPrefix_shorter firstLine "#!/usr/bin/python3" "#!/usr/bin/python") as H24.
  pose proof (HasPrefix_shorter firstLine "#!/usr/bin/env python" "#!") as H3.
  pose proof (HasPrefix_shorter firstLine "#!/usr/bin/python" "#!") as H4.
  destruct (strings.HasPrefix firstLine "#!/usr/bin/env python3") eqn:E1.
  { rewrite H13, H3; [reflexivity | | | |]; try reflexivity.
    - now exists (lit "/usr/bin/env python").
    - apply H13; [now exists (lit "3") | reflexivity].
    - now exists (lit "3"). }
  destruct (strings.HasPrefix firstLine "#!/usr/bin/python3") eqn:E2.
  { assert (E4 : strings.HasPrefix firstLine "#!/usr/bin/python" = true)
      by (apply H24; [now exists (lit "3") | reflexivity]).
    rewrite E4, orb_true_r, H4; [reflexivity | now exists (lit "/usr/bin/python") | exact E4]. }
  destruct (strings.HasPrefix firstLine "#!/usr/bin/env python") eqn:E3.
  { rewrite H3; [reflexivity | now exists (lit "/usr/bin/env python") | reflexivity]. }
  destruct (strings.HasPrefix firstLine "#!/usr/bin/python") eqn:E4.
  { rewrite H4; [reflexivity | now exists (lit "/usr/bin/python") | reflexivity]. }
  cbn [orb].
  destruct (strings.HasPrefix firstLine "#!");
    destruct (bool_decide (strings.ToLower (filepath.Ext filePath) = lit ".py"));
    reflexivity.
Qed.

End ThereAndBack.

(** ** The further theorems at concrete inputs *)

Lemma encode_twice_terminated_witness :
  encodeBytes (encodeBytes (nl "one" ++ nl "two")) = nl "one" ++ nl "two".
Proof. apply encode_twice_terminated. reflexivity. Defined.

Lemma usage_errors_witness :
  main (lib := asciiLib) 0 [lit "backlang"; lit "list"; lit "a.txt"] scriptWorld
  = (Some 2%Z, appendLog [EvStderr usageText] scriptWorld).
Proof.
  apply (@usage_errors asciiLib). right.
  exists (lit "backlang"), (lit "list"), (lit "a.txt").
  repeat split; discriminate.
Defined.

Lemma missing_input_reported_witness :
  main (lib := asciiLib) 0 [lit "backlang"; lit "encode"; lit "dir/none.txt"] scriptWorld
  = (Some 1%Z,
     appendLog [EvReadFile "dir/none.txt";
                EvStderr ("Error: File '" ++ filepath.Base "dir/none.txt" ++ "' not found"
                          ++ [LF])] scriptWorld).
Proof.
  apply (@missing_input_reported asciiLib); [now left | reflexivity | reflexivity].
Defined.


Lemma encode_command_witness :
  fst (main (lib := asciiLib) 0 [lit "backlang"; lit "encode"; lit "a.txt"] scriptWorld)
  = Some 0%Z /\
  files (snd (main (lib := asciiLib) 0 [lit "backlang"; lit "encode"; lit "a.txt"]
                   scriptWorld))
  !! lit "a.txt" = Some (nl "1" ++ nl "2").
Proof.
  destruct (@encode_command asciiLib 0 "backlang" "a.txt" (nl "1" ++ nl "2") scriptWorld)
    as (Hcode & _ & Hinput & _); try reflexivity.
  split; [exact Hcode | exact Hinput].
Defined.

Lemma returned_name_is_least_free_witness :
  exists N evs,
    (1 <= N <= Z.of_nat 5)%Z /\
    lit "out_2.txt" = alternateName "out.txt" N /\
    existsIn outWorld "out_2.txt" = false /\
    (forall k, (1 <= k < N)%Z -> existsIn outWorld (alternateName "out.txt" k) = true) /\
    appendLog [EvStat "out_1.txt"; EvStat "out_2.txt"] outWorld = appendLog evs outWorld.
Proof.
  apply (returned_name_is_least_free 5 "out.txt" "out_2.txt" outWorld
           (appendLog [EvStat "out_1.txt"; EvStat "out_2.txt"] outWorld)).
  - simpl. lia.
  - vm_compute. reflexivity.
Defined.

Lemma no_free_name_no_return_witness :
  fst (nextAvailableName 1 "out.txt" outWorld) = Hang.
Proof.
  apply no_free_name_no_return.
  - simpl. lia.
  - intros k Hk. assert (k = 1%Z) as -> by lia. vm_compute. reflexivity.
Defined.

Lemma run_spares_existing_files_witness :
  files (snd (run (lib := asciiLib) 3 "out.txt.bck" outWorld)) !! lit "out.txt"
  = files outWorld !! lit "out.txt".
Proof. apply (@run_spares_existing_files asciiLib). vm_compute. reflexivity. Defined.

Lemma decode_overwrites_only_on_yes_witness :
  files (snd (decode (lib := asciiLib) 3 "out.txt.bck" outWorld)) !! lit "out.txt"
  = files outWorld !! lit "out.txt".
Proof.
  apply (@decode_overwrites_only_on_yes asciiLib).
  - vm_compute. reflexivity.
  - intros (_ & _ & [Hy|Hy]); vm_compute in Hy; discriminate.
Defined.

Lemma decode_overwrites_on_yes_witness :
  fst (decode (lib := asciiLib) 0 "out.txt.bck" yesWorld) = Ok tt /\
  files (snd (decode (lib := asciiLib) 0 "out.txt.bck" yesWorld)) !! lit "out.txt"
  = Some (nl "a" ++ nl "b").
Proof.
  rewrite (@decode_overwrites_on_yes asciiLib 0 "out.txt.bck" (nl "b" ++ nl "a") yesWorld);
    try (vm_compute; reflexivity).
  - split; vm_compute; reflexivity.
  - split; [reflexivity|]. left. vm_compute. reflexivity.
Defined.

Lemma decode_stops_on_stdin_error_witness :
  fst (decode (lib := asciiLib) 0 "out.txt.bck" deafWorld)
  = Err (ReadError "read /dev/stdin: input/output error") /\
  files (snd (decode (lib := asciiLib) 0 "out.txt.bck" deafWorld)) = files deafWorld.
Proof.
  rewrite (@decode_stops_on_stdin_error asciiLib 0 "out.txt.bck" (nl "b" ++ nl "a")
             "read /dev/stdin: input/output error" deafWorld);
    try (vm_compute; reflexivity).
  split; reflexivity.
Defined.

Lemma run_decodes_detects_executes_witness :
  fst (run (lib := asciiLib) 0 "hello.py.bck" pythonWorld) = Ok tt /\
  last (log (snd (run (lib := asciiLib) 0 "hello.py.bck" pythonWorld)))
  = Some (EvExec "python3" [lit "hello.py"]).
Proof.
  destruct (@run_decodes_detects_executes asciiLib 0 "hello.py.bck"
              (nl "print(2)" ++ nl "print(1)") Python pythonWorld)
    as (Hres & _ & Hlog); try (vm_compute; reflexivity).
  split; [exact Hres|]. rewrite Hlog. vm_compute. reflexivity.
Defined.

Lemma run_without_interpreter_witness :
  fst (run (lib := asciiLib) 0 "notes.txt.bck" pythonWorld)
  = Err (Errorf "Error: No interpreter found for 'notes.txt'") /\
  files (snd (run (lib := asciiLib) 0 "notes.txt.bck" pythonWorld)) !! lit "notes.txt"
  = Some (nl "a" ++ nl "b").
Proof.
  destruct (@run_without_interpreter asciiLib 0 "notes.txt.bck" (nl "b" ++ nl "a")
              (Errorf "Error: No interpreter found for 'notes.txt'") pythonWorld)
    as (_ & Hres & Hfiles & _); try (vm_compute; reflexivity).
  split; [exact Hres|]. rewrite Hfiles. vm_compute. reflexivity.
Defined.

Lemma names_there_and_back_witness :
  stripLastBck (lib := asciiLib) ("script.py" ++ ".bck") = "script.py".
Proof.
  apply (@names_there_and_back asciiLib "script.py");
    [discriminate | vm_compute; intuition discriminate | reflexivity].
Defined.

Lemma decode_recreates_the_source_witness :
  files (snd (decode (lib := asciiLib) 0 ("notes.txt" ++ ".bck") pythonWorld))
  = <[lit "notes.txt" := nl "a" ++ nl "b"]> (files pythonWorld).
Proof.
  apply (@decode_recreates_the_source asciiLib 0 "notes.txt" (nl "a" ++ nl "b") pythonWorld);
    try (vm_compute; reflexivity).
  - discriminate.
  - vm_compute. intuition discriminate.
  - right. vm_compute. discriminate.
Defined.
